(** * Tutel JIT front-ends: handle allocation, artifact staging, call forwarding

    A shallow embedding of
      - src/moe/jit.py                      (single-process front-end)
      - tutel/jit.py                        (distributed front-end)
      - src/moe/jit_kernels/sparse_fp16.py  (kernel templates, specialization)

    Python integers are [Z], Python strings are [string], the file system is a
    finite map from paths to contents, and the class attribute
    [JitKernel.__CTX__] is an optional integer of the process state. *)

From Stdlib Require Import ZArith String Ascii List Lia.
From stdpp Require Import base option list gmap strings pretty.

Local Open Scope Z_scope.

(** ** Python strings *)

Module PyStr.

(** [str(n)] for a Python integer: decimal digits, with a leading minus
    sign for negative numbers. *)
Definition str (n : Z) : string := pretty n.

(** [s.startswith(p)] *)
Fixpoint startswith (p s : string) : bool :=
  match p, s with
  | EmptyString, _ => true
  | String a p', String b s' => if decide (a = b) then startswith p' s' else false
  | String _ _, EmptyString => false
  end.

(** Scanning loop of [str.replace] for a non-empty [old]: [skip] counts the
    characters of a match that are still to be jumped over. *)
Fixpoint replace_scan (old new : string) (skip : nat) (s : string) : string :=
  match s with
  | EmptyString => EmptyString
  | String c s' =>
      match skip with
      | S k => replace_scan old new k s'
      | O =>
          if startswith old s
          then new +:+ replace_scan old new (String.length old - 1) s'
          else String c (replace_scan old new 0 s')
      end
  end.

(** For an empty [old] Python puts [new] in front of every character and
    at the end. *)
Fixpoint replace_empty (new s : string) : string :=
  match s with
  | EmptyString => new
  | String c s' => new +:+ String c (replace_empty new s')
  end.

(** [s.replace(old, new)]: every non-overlapping occurrence of [old], found
    from left to right, is replaced by [new]. *)
Definition replace (old new s : string) : string :=
  match old with
  | EmptyString => replace_empty new s
  | String _ _ => replace_scan old new 0 s
  end.

(** [old in s] *)
Definition occurs (old s : string) : Prop :=
  exists a b, s = a +:+ old +:+ b.

(** [old in s], as a test *)
Fixpoint contains (old s : string) : bool :=
  startswith old s ||
  match s with
  | EmptyString => false
  | String _ s' => contains old s'
  end.

(** the characters of a string *)
Fixpoint chars (s : string) : list ascii :=
  match s with
  | EmptyString => []
  | String c s' => c :: chars s'
  end.

(** the last character, if any *)
Fixpoint last_char (s : string) : option ascii :=
  match s with
  | EmptyString => None
  | String c EmptyString => Some c
  | String _ s' => last_char s'
  end.

(** the string without its last character *)
Fixpoint init (s : string) : string :=
  match s with
  | EmptyString => EmptyString
  | String _ EmptyString => EmptyString
  | String c s' => String c (init s')
  end.

(** the characters [str] can produce *)
Definition decimal_char (c : ascii) : Prop := c ∈ chars "-0123456789".

End PyStr.

(** ** Exceptions, process state, and the monad of Python code *)

Inductive exn : Type :=
| AssertionError (msg : string)
| Exception (msg : string)
| ModuleNotFoundError (msg : string)
| AttributeError (msg : string)
| UnboundLocalError (msg : string)
| FileNotFoundError (path : string).

Definition result (A : Type) : Type := exn + A.

(** The part of the process and of the operating system that the
    front-ends read and write. *)
Record world : Type := World {
  (** the class attribute [JitKernel.__CTX__]; [None] while it is unset *)
  JitKernel_CTX : option Z;
  (** how often [torch.cuda.init()] has run *)
  cuda_inits : nat;
  (** the file system: path to content *)
  files : gmap string string;
  (** the names [tempfile.mktemp()] hands out, by call number *)
  tempfile_names : nat -> string;
  (** how often [tempfile.mktemp()] has run *)
  mktemp_calls : nat
}.

(** Python code runs on the process state and either returns a value or
    raises; the state reached by then is kept in both cases. *)
Definition M (A : Type) : Type := world -> world * result A.

#[global] Instance M_ret : MRet M := fun A a w => (w, inr a).
#[global] Instance M_bind : MBind M := fun A B f m w =>
  match m w with
  | (w', inr a) => f a w'
  | (w', inl e) => (w', inl e)
  end.

Definition raise {A : Type} (e : exn) : M A := fun w => (w, inl e).

Definition lift {A : Type} (r : result A) : M A := fun w => (w, r).

Definition set_files (fs : gmap string string) : M unit := fun w =>
  (World (JitKernel_CTX w) (cuda_inits w) fs (tempfile_names w) (mktemp_calls w),
   inr tt).

Definition set_CTX (v : Z) : M unit := fun w =>
  (World (Some v) (cuda_inits w) (files w) (tempfile_names w) (mktemp_calls w),
   inr tt).

(** *** Operating system calls on the file system

    The calls are those of a POSIX system on their success path: [open]
    creates or truncates, [os.rename] replaces an existing destination in one
    step.  An open file is addressed by its path, and text handed to
    [fp.write] reaches the file at once; buffering would only delay the
    growth of the temporary file. *)

(** [open(p, 'w')]: create or truncate *)
Definition os_open_w (p : string) : M unit := fun w =>
  set_files (<[p := ""]> (files w)) w.

(** [fp.write(text)] on the file opened at [p] *)
Definition fp_write (p text : string) : M unit := fun w =>
  match files w !! p with
  | Some c => set_files (<[p := c +:+ text]> (files w)) w
  | None => raise (FileNotFoundError p) w
  end.

(** [os.rename(src, dst)] *)
Definition os_rename (src dst : string) : M unit := fun w =>
  match files w !! src with
  | Some c => set_files (<[dst := c]> (delete src (files w))) w
  | None => raise (FileNotFoundError src) w
  end.

(** [tempfile.mktemp()] *)
Definition tempfile_mktemp : M string := fun w =>
  (World (JitKernel_CTX w) (cuda_inits w) (files w)
     (tempfile_names w) (S (mktemp_calls w)),
   inr (tempfile_names w (mktemp_calls w))).

(** [torch.cuda.init()] *)
Definition torch_cuda_init : M unit := fun w =>
  (World (JitKernel_CTX w) (S (cuda_inits w)) (files w)
     (tempfile_names w) (mktemp_calls w),
   inr tt).

(** *** The statements of [JitKernel.create] *)

(** Local variables of one activation of [JitKernel.create]. *)
Record frame : Type := Frame {
  source : string;
  l_ctx : option Z;          (* __ctx__ *)
  l_key : option Z;          (* key (tutel/jit.py only) *)
  l_temp_loc : option string (* temp_loc *)
}.

Definition action : Type := frame -> M frame.

Definition no_CTX : exn :=
  AttributeError "type object 'JitKernel' has no attribute '__CTX__'".

Definition unbound (name : string) : exn :=
  UnboundLocalError ("local variable '" +:+ name +:+ "' referenced before assignment").

(** [hasattr(JitKernel, '__CTX__')] *)
Definition hasattr_CTX (w : world) : bool :=
  match JitKernel_CTX w with Some _ => true | None => false end.

(** reading [JitKernel.__CTX__] *)
Definition read_CTX : M Z := fun w =>
  match JitKernel_CTX w with
  | Some c => (w, inr c)
  | None => raise no_CTX w
  end.

(** reading a local variable *)
Definition get_ctx (f : frame) : M Z :=
  match l_ctx f with Some c => mret c | None => raise (unbound "__ctx__") end.

Definition get_key (f : frame) : M Z :=
  match l_key f with Some k => mret k | None => raise (unbound "key") end.

Definition get_temp_loc (f : frame) : M string :=
  match l_temp_loc f with Some t => mret t | None => raise (unbound "temp_loc") end.

(** [torch.cuda.init()] as a statement *)
Definition do_cuda_init : action := fun f =>
  _ ← torch_cuda_init; mret f.

(** [JitKernel.__CTX__ = 0] *)
Definition store_CTX_0 : action := fun f =>
  _ ← set_CTX 0; mret f.

(** [__ctx__ = JitKernel.__CTX__] *)
Definition load_CTX : action := fun f =>
  c ← read_CTX;
  mret (Frame (source f) (Some c) (l_key f) (l_temp_loc f)).

(** [JitKernel.__CTX__ += 1], taken as one indivisible step *)
Definition incr_CTX : action := fun f =>
  c ← read_CTX;
  _ ← set_CTX (c + 1);
  mret f.

(** [key = dist_rank] *)
Definition set_key (dist_rank : Z) : action := fun f =>
  mret (Frame (source f) (l_ctx f) (Some dist_rank) (l_temp_loc f)).

(** [f'{base}-{ctx}.MoE'] *)
Definition temp_name (base : string) (ctx : Z) : string :=
  base +:+ "-" +:+ PyStr.str ctx +:+ ".MoE".

(** [temp_loc = f'{tempfile.mktemp()}-{__ctx__}.MoE'] *)
Definition make_temp_loc : action := fun f =>
  base ← tempfile_mktemp;
  c ← get_ctx f;
  mret (Frame (source f) (l_ctx f) (l_key f) (Some (temp_name base c))).

(** [with open(temp_loc, 'w') as fp:] *)
Definition open_temp : action := fun f =>
  t ← get_temp_loc f;
  _ ← os_open_w t;
  mret f.

(** The two include lines written in front of the source. *)
Definition preamble (IS_HIP_EXTENSION : bool) : string :=
  if IS_HIP_EXTENSION
  then "#include <hip/hip_runtime.h>
#include <hip/hip_fp16.h>
"
  else "#include <cuda_runtime.h>
#include <cuda_fp16.h>
".

(** [if IS_HIP_EXTENSION: fp.write(...) else: fp.write(...)] *)
Definition write_preamble (IS_HIP_EXTENSION : bool) : action := fun f =>
  t ← get_temp_loc f;
  _ ← fp_write t (preamble IS_HIP_EXTENSION);
  mret f.

(** [fp.write(source)] *)
Definition write_source : action := fun f =>
  t ← get_temp_loc f;
  _ ← fp_write t (source f);
  mret f.

(** leaving the [with] block closes the file *)
Definition close_temp : action := fun f =>
  _ ← get_temp_loc f;
  mret f.

(** [os.rename(temp_loc, <recognized name>)] *)
Definition rename_temp (recognized : frame -> M string) : action := fun f =>
  t ← get_temp_loc f;
  dst ← recognized f;
  _ ← os_rename t dst;
  mret f.

(** *** Statements, sequential execution, single steps *)

Inductive stmt : Type :=
| Act (a : action)
| If (cond : world -> bool) (body : list stmt).

(** Sequential execution of a statement and of a block. *)
Fixpoint exec (s : stmt) (f : frame) : M frame :=
  match s with
  | Act a => a f
  | If cond body => fun w =>
      if cond w
      then (fix block (l : list stmt) (f : frame) : M frame :=
              match l with
              | [] => mret f
              | s' :: l' => f' ← exec s' f; block l' f'
              end) body f w
      else (mret f : M frame) w
  end.

Fixpoint exec_block (l : list stmt) (f : frame) : M frame :=
  match l with
  | [] => mret f
  | s :: l' => f' ← exec s f; exec_block l' f'
  end.

(** A thread of control inside [JitKernel.create]: its local variables and
    the statements it still has to run. *)
Record thread : Type := Thread {
  t_frame : frame;
  t_cont : list stmt
}.

(** One step of a thread: the next statement runs as a whole; the test of
    an [if] is a step of its own.  A thread that has finished stays put. *)
Definition step (t : thread) : M thread :=
  match t_cont t with
  | [] => mret t
  | Act a :: k =>
      f' ← a (t_frame t);
      mret (Thread f' k)
  | If cond body :: k => fun w =>
      (mret (Thread (t_frame t) ((if cond w then body else []) ++ k)) : M thread) w
  end.

(** [n] steps of one thread running alone. *)
Fixpoint steps (n : nat) (t : thread) : M thread :=
  match n with
  | O => mret t
  | S n' => t' ← step t; steps n' t'
  end.

(** Threads of one process taking turns: the schedule names, step by step,
    the thread that runs next. *)
Definition sched_step (ts : list thread) (i : nat) : M (list thread) :=
  match ts !! i with
  | Some t => t' ← step t; mret (<[i := t']> ts)
  | None => mret ts
  end.

Fixpoint interleave (schedule : list nat) (ts : list thread) : M (list thread) :=
  match schedule with
  | [] => mret ts
  | i :: rest => ts' ← sched_step ts i; interleave rest ts'
  end.

Definition finished (t : thread) : bool :=
  match t_cont t with [] => true | _ => false end.

(** ** The host a front-end module is imported on

    [torch] itself is installed; the record says how its queries answer and
    which native extension modules can be imported. *)

Record host : Type := Host {
  (** can [import <name>] find the module? *)
  installed : string -> bool;
  (** [torch.cuda.is_available()] *)
  cuda_is_available : bool;
  (** outcome of [from torch.utils.cpp_extension import IS_HIP_EXTENSION] *)
  cpp_extension_IS_HIP_EXTENSION : result bool;
  (** outcome of [dist.get_rank()] *)
  dist_get_rank : result Z
}.

(** [import <name>] *)
Definition py_import (h : host) (name : string) : M unit :=
  if installed h name then mret tt
  else raise (ModuleNotFoundError ("No module named '" +:+ name +:+ "'")).

(** [assert cond, msg] *)
Definition py_assert (cond : bool) (msg : string) : M unit :=
  if cond then mret tt else raise (AssertionError msg).

(** [try: body  except: handler] with a bare [except] *)
Definition try_except {A : Type} (body handler : M A) : M A := fun w =>
  match body w with
  | (w', inr a) => (w', inr a)
  | (w', inl _) => handler w'
  end.

(** [try: from ... import IS_HIP_EXTENSION  except: IS_HIP_EXTENSION = False] *)
Definition resolve_IS_HIP_EXTENSION (h : host) : M bool :=
  try_except (lift (cpp_extension_IS_HIP_EXTENSION h)) (mret false).

(** [try: dist_rank = dist.get_rank()  except: dist_rank = 0] *)
Definition resolve_dist_rank (h : host) : M Z :=
  try_except (lift (dist_get_rank h)) (mret 0).

(** A fresh activation of [create(source)]. *)
Definition enter (source : string) : frame := Frame source None None None.

(** Lines 13-17 of src/moe/jit.py, lines 26-30 of tutel/jit.py. *)
Definition allocate_handle : list stmt :=
  [ If (fun w => negb (hasattr_CTX w))
       [ Act do_cuda_init;
         Act store_CTX_0 ];
    Act load_CTX;
    Act incr_CTX ].

(** The [with open(temp_loc, 'w') as fp:] block. *)
Definition write_temp (IS_HIP_EXTENSION : bool) : list stmt :=
  [ Act open_temp;
    Act (write_preamble IS_HIP_EXTENSION);
    Act write_source;
    Act close_temp ].

(** Calling a creation function on each source in turn. *)
Fixpoint for_each {F : Type} (create : string -> M F) (sources : list string)
  : M (list F) :=
  match sources with
  | [] => mret []
  | s :: rest =>
      fn ← create s;
      fns ← for_each create rest;
      mret (fn :: fns)
  end.

(** ** src/moe/jit.py *)

Module Moe.

(** Module globals after the import. *)
Record globals : Type := Globals {
  IS_HIP_EXTENSION : bool
}.

(** Lines 1-8: the module body up to the class. *)
Definition import_jit (h : host) : M globals :=
  _ ← py_import h "custom_kernel";
  hip ← resolve_IS_HIP_EXTENSION h;
  mret (Globals hip).

(** [f'/tmp/{__ctx__}.cu'] *)
Definition recognized (ctx : Z) : string :=
  "/tmp/" +:+ PyStr.str ctx +:+ ".cu".

Definition recognized_of (f : frame) : M string :=
  c ← get_ctx f; mret (recognized c).

(** The closure [func]: it captures [__ctx__]. *)
Record func : Type := Func {
  captured_ctx : Z
}.

(** Lines 13-26. *)
Definition create_body (g : globals) : list stmt :=
  allocate_handle ++
  [ Act make_temp_loc ] ++
  write_temp (IS_HIP_EXTENSION g) ++
  [ Act (rename_temp recognized_of) ].

(** [return func] *)
Definition return_func (f : frame) : M func :=
  c ← get_ctx f; mret (Func c).

(** [JitKernel.create(source)] *)
Definition create (g : globals) (source : string) : M func :=
  f ← exec_block (create_body g) (enter source);
  return_func f.

(** One call of the back end: [custom_kernel.invoke(inputs, __ctx__)]. *)
Inductive invocation (B : Type) : Type :=
| Invoke (inputs : list B) (ctx : Z).
Arguments Invoke {B} inputs ctx.

(** Calling [func] with [inputs]: the calls seen by the back end, in order. *)
Definition call {B : Type} (fn : func) (inputs : list B)
    (backend : list (invocation B)) : list (invocation B) :=
  backend ++ [Invoke inputs (captured_ctx fn)].

(** A thread that has just entered [create(source)]. *)
Definition spawn (g : globals) (source : string) : thread :=
  Thread (enter source) (create_body g).

(** A process that imports the module and then asks for kernels, the way
    sparse_fp16.py does with [from ..jit import JitKernel] and its calls of
    [JitKernel.create]. *)
Definition session (h : host) (sources : list string) : M (list func) :=
  g ← import_jit h;
  for_each (create g) sources.

End Moe.

(** ** tutel/jit.py *)

Module Tutel.

Record globals : Type := Globals {
  IS_HIP_EXTENSION : bool;
  dist_rank : Z
}.

Definition cuda_only : string :=
  "This version of Tutel MoE only supports CUDA. More backends will be supported soon.".

Definition no_extension : string :=
  "Cannot import JIT optimized kernels. Did you forget to install Custom Kernel Extension?".

(** Lines 1-21: the module body up to the class. *)
Definition import_jit (h : host) : M globals :=
  _ ← py_assert (bool_decide (cuda_is_available h = true)) cuda_only;
  _ ← try_except (py_import h "tutel_custom_kernel") (raise (Exception no_extension));
  hip ← resolve_IS_HIP_EXTENSION h;
  rank ← resolve_dist_rank h;
  mret (Globals hip rank).

(** [f'/tmp/{__ctx__}-{key}.cu'] *)
Definition recognized (ctx key : Z) : string :=
  "/tmp/" +:+ PyStr.str ctx +:+ "-" +:+ PyStr.str key +:+ ".cu".

Definition recognized_of (f : frame) : M string :=
  c ← get_ctx f; k ← get_key f; mret (recognized c k).

(** The closure [func]: it captures [__ctx__] and [key]. *)
Record func : Type := Func {
  captured_ctx : Z;
  captured_key : Z
}.

(** Lines 26-40. *)
Definition create_body (g : globals) : list stmt :=
  allocate_handle ++
  [ Act (set_key (dist_rank g));
    Act make_temp_loc ] ++
  write_temp (IS_HIP_EXTENSION g) ++
  [ Act (rename_temp recognized_of) ].

(** [return func] *)
Definition return_func (f : frame) : M func :=
  c ← get_ctx f; k ← get_key f; mret (Func c k).

(** [JitKernel.create(source)] *)
Definition create (g : globals) (source : string) : M func :=
  f ← exec_block (create_body g) (enter source);
  return_func f.

(** One call of the back end:
    [tutel_custom_kernel.invoke(inputs, __ctx__, key)]. *)
Inductive invocation (B : Type) : Type :=
| Invoke (inputs : list B) (ctx key : Z).
Arguments Invoke {B} inputs ctx key.

(** Calling [func] with [inputs]: the calls seen by the back end, in order. *)
Definition call {B : Type} (fn : func) (inputs : list B)
    (backend : list (invocation B)) : list (invocation B) :=
  backend ++ [Invoke inputs (captured_ctx fn) (captured_key fn)].

Definition spawn (g : globals) (source : string) : thread :=
  Thread (enter source) (create_body g).

(** A process that imports the module and then asks for kernels, the way
    sparse_fp16.py does with [from ..jit import JitKernel] and its calls of
    [JitKernel.create]. *)
Definition session (h : host) (sources : list string) : M (list func) :=
  g ← import_jit h;
  for_each (create g) sources.

End Tutel.

(** ** src/moe/jit_kernels/sparse_fp16.py *)

Module SparseFp16.

(** the token the templates carry in place of the capacity *)
Definition placeholder : string := "@capacity@".

(** [template.replace('@capacity@', str(shared_data.capacity))];
    [shared_data] comes from the layer module and is taken as given. *)
Definition specialize (template : string) (capacity : Z) : string :=
  PyStr.replace placeholder (PyStr.str capacity) template.

Definition dq : string := String "034"%char "".

(** Lines 142-154: the template of [func_bwd_data]. *)
Definition func_bwd_data_template : string :=
  "
#define capacity (@capacity@)

extern " +:+ dq +:+ "C" +:+ dq +:+ " __global__ __launch_bounds__(32) void template_op_kernel0(half* __restrict__ dispatched_input, half* __restrict__ gates1_s, int* __restrict__ indices1_s, int* __restrict__ locations1_s, half* __restrict__ grad_reshaped_input) {
  // [thread_extent] blockIdx.x = 1024
  // [thread_extent] threadIdx.x = 2
  // [thread_extent] blockIdx.y = 2
  // [thread_extent] threadIdx.y = 16
  for (int vthread_s = 0; vthread_s < 64; ++vthread_s) {
    grad_reshaped_input[((((((((int)blockIdx.x) * 4096) + (((int)threadIdx.x) * 2048)) + (((int)blockIdx.y) * 1024)) + (vthread_s * 16)) + ((int)threadIdx.y)))] = ((locations1_s[(((((int)blockIdx.x) * 2) + ((int)threadIdx.x)))] < capacity) ? (gates1_s[(((((int)blockIdx.x) * 2) + ((int)threadIdx.x)))] * dispatched_input[((((((indices1_s[(((((int)blockIdx.x) * 2) + ((int)threadIdx.x)))] * (2048 * capacity)) + (locations1_s[(((((int)blockIdx.x) * 2) + ((int)threadIdx.x)))] * 2048)) + (((int)blockIdx.y) * 1024)) + (vthread_s * 16)) + ((int)threadIdx.y)))]) : __float2half_rn(0.000000e+00f));
  }
}
".

(** [func_bwd_data = JitKernel.create(<template>.replace(...))] *)
Definition func_bwd_data (g : Moe.globals) (capacity : Z) : M Moe.func :=
  Moe.create g (specialize func_bwd_data_template capacity).

End SparseFp16.

(** ** What one call of [create] does *)

(** The handle the next call of [create] takes. *)
Definition next_handle (w : world) : Z := default 0 (JitKernel_CTX w).

(** The temporary name the next call of [create] writes to. *)
Definition next_temp_loc (w : world) : string :=
  temp_name (tempfile_names w (mktemp_calls w)) (next_handle w).

(** The process state after a call of [create] that staged [text] at [dst]. *)
Definition after_create (w : world) (dst text : string) : world :=
  World (Some (next_handle w + 1))
        (if hasattr_CTX w then cuda_inits w else S (cuda_inits w))
        (<[dst := text]> (delete (next_temp_loc w) (files w)))
        (tempfile_names w)
        (S (mktemp_calls w)).

(** ** Statements about runs, and sample processes and hosts *)

(** The handles of the threads once all of them have run to the end. *)
Definition handles_of (r : world * result (list thread)) : option (list (option Z)) :=
  match r.2 with
  | inr ts => if forallb finished ts then Some ((fun t => l_ctx (t_frame t)) <$> ts) else None
  | inl _ => None
  end.

(** The statement that overlapping calls of [create], whatever the order
    in which their steps are taken, end up with the handles 0, 1, ..., N-1,
    each once. *)
Definition handles_dense_under_every_schedule (spawn : string -> thread) : Prop :=
  forall (sources : list string) (schedule : list nat) (w : world) (hs : list (option Z)),
    JitKernel_CTX w = None ->
    handles_of (interleave schedule (spawn <$> sources) w) = Some hs ->
    hs ≡ₚ (fun k => Some (Z.of_nat k)) <$> seq 0 (length sources).

(** A process that has not called [create] yet, on an empty file system. *)
Definition fresh_process : world :=
  World None 0 ∅ (fun n => "/tmp/tmp" +:+ pretty n) 0.

(** Two calls: the first has found the counter unset and has come back from
    [torch.cuda.init()] when the second runs from its start to its end; the
    first then sets the counter to 0 again and goes on to its end.  Steps
    scheduled for a call that has ended do nothing. *)
Definition racing_schedule : list nat :=
  [0; 0]%nat ++ replicate 12 1%nat ++ replicate 10 0%nat.

(** Two calls, the second after the end of the first. *)
Definition sequential_schedule : list nat :=
  replicate 12 0%nat ++ replicate 12 1%nat.

(** The line feed character. *)
Definition nl : string := String "010"%char "".

(** A host with CUDA but without the native extension modules. *)
Definition host_without_extension : host :=
  Host (fun _ => false) true (inr false) (inr 0).

(** A host with the extension modules, CUDA, no HIP flag to import and no
    process group. *)
Definition host_plain : host :=
  Host (fun _ => true) true
       (inl (ModuleNotFoundError "No module named 'torch.utils.cpp_extension'"))
       (inl (Exception "Default process group has not been initialized")).

(** A host without CUDA. *)
Definition host_without_cuda : host :=
  Host (fun _ => true) false (inr false) (inr 0).

(** A host on which neither runtime family is found: CUDA is not available
    and there is no HIP flag to import.  The extension modules can be
    imported. *)
Definition host_without_runtime : host :=
  Host (fun _ => true) false
       (inl (ModuleNotFoundError "No module named 'torch.utils.cpp_extension'"))
       (inr 0).

(** ** Further definitions *)

(** the decimal digits *)
Definition digit_char (c : ascii) : Prop := c ∈ PyStr.chars "0123456789".

(** [sep.join(pieces)] *)
Fixpoint join (sep : string) (pieces : list string) : string :=
  match pieces with
  | [] => ""
  | [p] => p
  | p :: rest => p +:+ sep +:+ join sep rest
  end.

(** ** src/moe/jit_kernels/sparse_fp16.py: the whole module *)

(** Lines 7-36: the template of [func_fwd_stage (HIP)]. *)
Definition func_fwd_stage_hip_template : string :=
  "
#define capacity (@capacity@)

extern " +:+ SparseFp16.dq +:+ "C" +:+ SparseFp16.dq +:+ " __global__ __launch_bounds__(32) void template_op_kernel0(half* __restrict__ gates1_s, int* __restrict__ indices1_s, int* __restrict__ locations1_s, half* __restrict__ reshaped_input, float* __restrict__ dispatched_input) {
  // [thread_extent] blockIdx.x = 2
  // [thread_extent] threadIdx.x = 2
  // [thread_extent] blockIdx.y = 32
  // [thread_extent] threadIdx.y = 16
  for (int vthread_s = 0; vthread_s < 16; ++vthread_s) {
    for (int vthread_s1 = 0; vthread_s1 < 32; ++vthread_s1) {
      ((locations1_s[(((((((int)blockIdx.x) * 1024) + (vthread_s * 64)) + (((int)threadIdx.x) * 32)) + vthread_s1))] < capacity) ? atomicAdd(&dispatched_input[(((((indices1_s[(((((((int)blockIdx.x) * 1024) + (vthread_s * 64)) + (((int)threadIdx.x) * 32)) + vthread_s1))] * (2048 * capacity)) + (locations1_s[(((((((int)blockIdx.x) * 1024) + (vthread_s * 64)) + (((int)threadIdx.x) * 32)) + vthread_s1))] * 2048)) + (((int)blockIdx.y) * 64)) + (((int)threadIdx.y) * 2)))], __half2float(gates1_s[(((((((int)blockIdx.x) * 1024) + (vthread_s * 64)) + (((int)threadIdx.x) * 32)) + vthread_s1))] * reshaped_input[(((((((((int)blockIdx.x) * 2097152) + (vthread_s * 131072)) + (((int)threadIdx.x) * 65536)) + (vthread_s1 * 2048)) + (((int)blockIdx.y) * 64)) + (((int)threadIdx.y) * 2)))])) : 0.000000e+00f);
    }
  }
  for (int vthread_s2 = 0; vthread_s2 < 16; ++vthread_s2) {
    for (int vthread_s3 = 0; vthread_s3 < 32; ++vthread_s3) {
      ((locations1_s[(((((((int)blockIdx.x) * 1024) + (vthread_s2 * 64)) + (((int)threadIdx.x) * 32)) + vthread_s3))] < capacity) ? atomicAdd(&dispatched_input[((((((indices1_s[(((((((int)blockIdx.x) * 1024) + (vthread_s2 * 64)) + (((int)threadIdx.x) * 32)) + vthread_s3))] * (2048 * capacity)) + (locations1_s[(((((((int)blockIdx.x) * 1024) + (vthread_s2 * 64)) + (((int)threadIdx.x) * 32)) + vthread_s3))] * 2048)) + (((int)blockIdx.y) * 64)) + (((int)threadIdx.y) * 2)) + 1))], __half2float(gates1_s[(((((((int)blockIdx.x) * 1024) + (vthread_s2 * 64)) + (((int)threadIdx.x) * 32)) + vthread_s3))] * reshaped_input[((((((((((int)blockIdx.x) * 2097152) + (vthread_s2 * 131072)) + (((int)threadIdx.x) * 65536)) + (vthread_s3 * 2048)) + (((int)blockIdx.y) * 64)) + (((int)threadIdx.y) * 2)) + 1))])) : 0.000000e+00f);
    }
  }
  for (int vthread_s4 = 0; vthread_s4 < 16; ++vthread_s4) {
    for (int vthread_s5 = 0; vthread_s5 < 32; ++vthread_s5) {
      ((locations1_s[(((((((int)blockIdx.x) * 1024) + (vthread_s4 * 64)) + (((int)threadIdx.x) * 32)) + vthread_s5))] < capacity) ? atomicAdd(&dispatched_input[((((((indices1_s[(((((((int)blockIdx.x) * 1024) + (vthread_s4 * 64)) + (((int)threadIdx.x) * 32)) + vthread_s5))] * (2048 * capacity)) + (locations1_s[(((((((int)blockIdx.x) * 1024) + (vthread_s4 * 64)) + (((int)threadIdx.x) * 32)) + vthread_s5))] * 2048)) + (((int)blockIdx.y) * 64)) + (((int)threadIdx.y) * 2)) + 32))], __half2float(gates1_s[(((((((int)blockIdx.x) * 1024) + (vthread_s4 * 64)) + (((int)threadIdx.x) * 32)) + vthread_s5))] * reshaped_input[((((((((((int)blockIdx.x) * 2097152) + (vthread_s4 * 131072)) + (((int)threadIdx.x) * 65536)) + (vthread_s5 * 2048)) + (((int)blockIdx.y) * 64)) + (((int)threadIdx.y) * 2)) + 32))])) : 0.000000e+00f);
    }
  }
  for (int vthread_s6 = 0; vthread_s6 < 16; ++vthread_s6) {
    for (int vthread_s7 = 0; vthread_s7 < 32; ++vthread_s7) {
      ((locations1_s[(((((((int)blockIdx.x) * 1024) + (vthread_s6 * 64)) + (((int)threadIdx.x) * 32)) + vthread_s7))] < capacity) ? atomicAdd(&dispatched_input[((((((indices1_s[(((((((int)blockIdx.x) * 1024) + (vthread_s6 * 64)) + (((int)threadIdx.x) * 32)) + vthread_s7))] * (2048 * capacity)) + (locations1_s[(((((((int)blockIdx.x) * 1024) + (vthread_s6 * 64)) + (((int)threadIdx.x) * 32)) + vthread_s7))] * 2048)) + (((int)blockIdx.y) * 64)) + (((int)threadIdx.y) * 2)) + 33))], __half2float(gates1_s[(((((((int)blockIdx.x) * 1024) + (vthread_s6 * 64)) + (((int)threadIdx.x) * 32)) + vthread_s7))] * reshaped_input[((((((((((int)blockIdx.x) * 2097152) + (vthread_s6 * 131072)) + (((int)threadIdx.x) * 65536)) + (vthread_s7 * 2048)) + (((int)blockIdx.y) * 64)) + (((int)threadIdx.y) * 2)) + 33))])) : 0.000000e+00f);
    }
  }
}
".

(** Lines 45-70: the template of [func_fwd_stage (CUDA)]. *)
Definition func_fwd_stage_cuda_template : string :=
  "
#define capacity (@capacity@)

extern " +:+ SparseFp16.dq +:+ "C" +:+ SparseFp16.dq +:+ " __global__ __launch_bounds__(1024) void template_op_kernel0(__half2* __restrict__ gates1_s, int* __restrict__ indices1_s, int* __restrict__ locations1_s, __half2* __restrict__ reshaped_input, __half2* __restrict__ dispatched_input) {
  // [thread_extent] blockIdx.x = 128
  // [thread_extent] threadIdx.x = 1
  // [thread_extent] blockIdx.y = 1
  // [thread_extent] threadIdx.y = 1024
  ((locations1_s[((((int)blockIdx.x) * 16))] < capacity) ? atomicAdd(&dispatched_input[((((indices1_s[((((int)blockIdx.x) * 16))] * (1024 * capacity)) + (locations1_s[((((int)blockIdx.x) * 16))] * 1024)) + ((int)threadIdx.y)))], __hmul2(gates1_s[((((int)blockIdx.x) * 16))], reshaped_input[(((((int)blockIdx.x) * 16384) + ((int)threadIdx.y)))])) : __half2(0, 0));
  ((locations1_s[(((((int)blockIdx.x) * 16) + 1))] < capacity) ? atomicAdd(&dispatched_input[((((indices1_s[(((((int)blockIdx.x) * 16) + 1))] * (1024 * capacity)) + (locations1_s[(((((int)blockIdx.x) * 16) + 1))] * 1024)) + ((int)threadIdx.y)))], __hmul2(gates1_s[(((((int)blockIdx.x) * 16) + 1))], reshaped_input[((((((int)blockIdx.x) * 16384) + ((int)threadIdx.y)) + 1024))])) : __half2(0, 0));
  ((locations1_s[(((((int)blockIdx.x) * 16) + 2))] < capacity) ? atomicAdd(&dispatched_input[((((indices1_s[(((((int)blockIdx.x) * 16) + 2))] * (1024 * capacity)) + (locations1_s[(((((int)blockIdx.x) * 16) + 2))] * 1024)) + ((int)threadIdx.y)))], __hmul2(gates1_s[(((((int)blockIdx.x) * 16) + 2))], reshaped_input[((((((int)blockIdx.x) * 16384) + ((int)threadIdx.y)) + 2048))])) : __half2(0, 0));
  ((locations1_s[(((((int)blockIdx.x) * 16) + 3))] < capacity) ? atomicAdd(&dispatched_input[((((indices1_s[(((((int)blockIdx.x) * 16) + 3))] * (1024 * capacity)) + (locations1_s[(((((int)blockIdx.x) * 16) + 3))] * 1024)) + ((int)threadIdx.y)))], __hmul2(gates1_s[(((((int)blockIdx.x) * 16) + 3))], reshaped_input[((((((int)blockIdx.x) * 16384) + ((int)threadIdx.y)) + 3072))])) : __half2(0, 0));
  ((locations1_s[(((((int)blockIdx.x) * 16) + 4))] < capacity) ? atomicAdd(&dispatched_input[((((indices1_s[(((((int)blockIdx.x) * 16) + 4))] * (1024 * capacity)) + (locations1_s[(((((int)blockIdx.x) * 16) + 4))] * 1024)) + ((int)threadIdx.y)))], __hmul2(gates1_s[(((((int)blockIdx.x) * 16) + 4))], reshaped_input[((((((int)blockIdx.x) * 16384) + ((int)threadIdx.y)) + 4096))])) : __half2(0, 0));
  ((locations1_s[(((((int)blockIdx.x) * 16) + 5))] < capacity) ? atomicAdd(&dispatched_input[((((indices1_s[(((((int)blockIdx.x) * 16) + 5))] * (1024 * capacity)) + (locations1_s[(((((int)blockIdx.x) * 16) + 5))] * 1024)) + ((int)threadIdx.y)))], __hmul2(gates1_s[(((((int)blockIdx.x) * 16) + 5))], reshaped_input[((((((int)blockIdx.x) * 16384) + ((int)threadIdx.y)) + 5120))])) : __half2(0, 0));
  ((locations1_s[(((((int)blockIdx.x) * 16) + 6))] < capacity) ? atomicAdd(&dispatched_input[((((indices1_s[(((((int)blockIdx.x) * 16) + 6))] * (1024 * capacity)) + (locations1_s[(((((int)blockIdx.x) * 16) + 6))] * 1024)) + ((int)threadIdx.y)))], __hmul2(gates1_s[(((((int)blockIdx.x) * 16) + 6))], reshaped_input[((((((int)blockIdx.x) * 16384) + ((int)threadIdx.y)) + 6144))])) : __half2(0, 0));
  ((locations1_s[(((((int)blockIdx.x) * 16) + 7))] < capacity) ? atomicAdd(&dispatched_input[((((indices1_s[(((((int)blockIdx.x) * 16) + 7))] * (1024 * capacity)) + (locations1_s[(((((int)blockIdx.x) * 16) + 7))] * 1024)) + ((int)threadIdx.y)))], __hmul2(gates1_s[(((((int)blockIdx.x) * 16) + 7))], reshaped_input[((((((int)blockIdx.x) * 16384) + ((int)threadIdx.y)) + 7168))])) : __half2(0, 0));
  ((locations1_s[(((((int)blockIdx.x) * 16) + 8))] < capacity) ? atomicAdd(&dispatched_input[((((indices1_s[(((((int)blockIdx.x) * 16) + 8))] * (1024 * capacity)) + (locations1_s[(((((int)blockIdx.x) * 16) + 8))] * 1024)) + ((int)threadIdx.y)))], __hmul2(gates1_s[(((((int)blockIdx.x) * 16) + 8))], reshaped_input[((((((int)blockIdx.x) * 16384) + ((int)threadIdx.y)) + 8192))])) : __half2(0, 0));
  ((locations1_s[(((((int)blockIdx.x) * 16) + 9))] < capacity) ? atomicAdd(&dispatched_input[((((indices1_s[(((((int)blockIdx.x) * 16) + 9))] * (1024 * capacity)) + (locations1_s[(((((int)blockIdx.x) * 16) + 9))] * 1024)) + ((int)threadIdx.y)))], __hmul2(gates1_s[(((((int)blockIdx.x) * 16) + 9))], reshaped_input[((((((int)blockIdx.x) * 16384) + ((int)threadIdx.y)) + 9216))])) : __half2(0, 0));
  ((locations1_s[(((((int)blockIdx.x) * 16) + 10))] < capacity) ? atomicAdd(&dispatched_input[((((indices1_s[(((((int)blockIdx.x) * 16) + 10))] * (1024 * capacity)) + (locations1_s[(((((int)blockIdx.x) * 16) + 10))] * 1024)) + ((int)threadIdx.y)))], __hmul2(gates1_s[(((((int)blockIdx.x) * 16) + 10))], reshaped_input[((((((int)blockIdx.x) * 16384) + ((int)threadIdx.y)) + 10240))])) : __half2(0, 0));
  ((locations1_s[(((((int)blockIdx.x) * 16) + 11))] < capacity) ? atomicAdd(&dispatched_input[((((indices1_s[(((((int)blockIdx.x) * 16) + 11))] * (1024 * capacity)) + (locations1_s[(((((int)blockIdx.x) * 16) + 11))] * 1024)) + ((int)threadIdx.y)))], __hmul2(gates1_s[(((((int)blockIdx.x) * 16) + 11))], reshaped_input[((((((int)blockIdx.x) * 16384) + ((int)threadIdx.y)) + 11264))])) : __half2(0, 0));
  ((locations1_s[(((((int)blockIdx.x) * 16) + 12))] < capacity) ? atomicAdd(&dispatched_input[((((indices1_s[(((((int)blockIdx.x) * 16) + 12))] * (1024 * capacity)) + (locations1_s[(((((int)blockIdx.x) * 16) + 12))] * 1024)) + ((int)threadIdx.y)))], __hmul2(gates1_s[(((((int)blockIdx.x) * 16) + 12))], reshaped_input[((((((int)blockIdx.x) * 16384) + ((int)threadIdx.y)) + 12288))])) : __half2(0, 0));
  ((locations1_s[(((((int)blockIdx.x) * 16) + 13))] < capacity) ? atomicAdd(&dispatched_input[((((indices1_s[(((((int)blockIdx.x) * 16) + 13))] * (1024 * capacity)) + (locations1_s[(((((int)blockIdx.x) * 16) + 13))] * 1024)) + ((int)threadIdx.y)))], __hmul2(gates1_s[(((((int)blockIdx.x) * 16) + 13))], reshaped_input[((((((int)blockIdx.x) * 16384) + ((int)threadIdx.y)) + 13312))])) : __half2(0, 0));
  ((locations1_s[(((((int)blockIdx.x) * 16) + 14))] < capacity) ? atomicAdd(&dispatched_input[((((indices1_s[(((((int)blockIdx.x) * 16) + 14))] * (1024 * capacity)) + (locations1_s[(((((int)blockIdx.x) * 16) + 14))] * 1024)) + ((int)threadIdx.y)))], __hmul2(gates1_s[(((((int)blockIdx.x) * 16) + 14))], reshaped_input[((((((int)blockIdx.x) * 16384) + ((int)threadIdx.y)) + 14336))])) : __half2(0, 0));
  ((locations1_s[(((((int)blockIdx.x) * 16) + 15))] < capacity) ? atomicAdd(&dispatched_input[((((indices1_s[(((((int)blockIdx.x) * 16) + 15))] * (1024 * capacity)) + (locations1_s[(((((int)blockIdx.x) * 16) + 15))] * 1024)) + ((int)threadIdx.y)))], __hmul2(gates1_s[(((((int)blockIdx.x) * 16) + 15))], reshaped_input[((((((int)blockIdx.x) * 16384) + ((int)threadIdx.y)) + 15360))])) : __half2(0, 0));
}
".

(** Lines 78-105: the template of [func_bwd_gate (HIP)]. *)
Definition func_bwd_gate_hip_template : string :=
  "
#define capacity (@capacity@)

extern " +:+ SparseFp16.dq +:+ "C" +:+ SparseFp16.dq +:+ " __global__ __launch_bounds__(32) void template_op_kernel0(half* __restrict__ dispatched_input, int* __restrict__ indices1_s, int* __restrict__ locations1_s, half* __restrict__ reshaped_input, half* __restrict__ grad_gates1_s) {
  // [thread_extent] blockIdx.x = 1024
  // [thread_extent] threadIdx.y = 2
  // [thread_extent] threadIdx.x = 16
  half grad_gates1_s_rf[1];
  grad_gates1_s_rf[(0)] = __float2half_rn(0.000000e+00f);
  for (int HIDDEN_outer = 0; HIDDEN_outer < 128; ++HIDDEN_outer) {
    grad_gates1_s_rf[(0)] = (grad_gates1_s_rf[(0)] + ((locations1_s[(((((int)blockIdx.x) * 2) + ((int)threadIdx.y)))] < capacity) ? (dispatched_input[(((((indices1_s[(((((int)blockIdx.x) * 2) + ((int)threadIdx.y)))] * (2048 * capacity)) + (locations1_s[(((((int)blockIdx.x) * 2) + ((int)threadIdx.y)))] * 2048)) + (HIDDEN_outer * 16)) + ((int)threadIdx.x)))] * reshaped_input[(((((((int)blockIdx.x) * 4096) + (((int)threadIdx.y) * 2048)) + (HIDDEN_outer * 16)) + ((int)threadIdx.x)))]) : __float2half_rn(0.000000e+00f)));
  }
  __shared__ half red_buf0[32];
  __syncthreads();
  ((volatile half*)red_buf0)[(((((int)threadIdx.y) * 16) + ((int)threadIdx.x)))] = grad_gates1_s_rf[(0)];
  __syncthreads();
  if (((int)threadIdx.x) < 8) {
    ((volatile half*)red_buf0)[(((((int)threadIdx.y) * 16) + ((int)threadIdx.x)))] = ((half)(((volatile half*)red_buf0)[(((((int)threadIdx.y) * 16) + ((int)threadIdx.x)))]) + (half)(((volatile half*)red_buf0)[((((((int)threadIdx.y) * 16) + ((int)threadIdx.x)) + 8))]));
    ((volatile half*)red_buf0)[(((((int)threadIdx.y) * 16) + ((int)threadIdx.x)))] = ((half)(((volatile half*)red_buf0)[(((((int)threadIdx.y) * 16) + ((int)threadIdx.x)))]) + (half)(((volatile half*)red_buf0)[((((((int)threadIdx.y) * 16) + ((int)threadIdx.x)) + 4))]));
    ((volatile half*)red_buf0)[(((((int)threadIdx.y) * 16) + ((int)threadIdx.x)))] = ((half)(((volatile half*)red_buf0)[(((((int)threadIdx.y) * 16) + ((int)threadIdx.x)))]) + (half)(((volatile half*)red_buf0)[((((((int)threadIdx.y) * 16) + ((int)threadIdx.x)) + 2))]));
    ((volatile half*)red_buf0)[(((((int)threadIdx.y) * 16) + ((int)threadIdx.x)))] = ((half)(((volatile half*)red_buf0)[(((((int)threadIdx.y) * 16) + ((int)threadIdx.x)))]) + (half)(((volatile half*)red_buf0)[((((((int)threadIdx.y) * 16) + ((int)threadIdx.x)) + 1))]));
  }
  __syncthreads();
  if (((int)threadIdx.x) == 0) {
    grad_gates1_s[(((((int)blockIdx.x) * 2) + ((int)threadIdx.y)))] = (half)(((volatile half*)red_buf0)[((((int)threadIdx.y) * 16))]);
  }
}
".

(** Lines 107-139: the template of [func_bwd_gate (CUDA)]. *)
Definition func_bwd_gate_cuda_template : string :=
  "
#define capacity (@capacity@)

extern " +:+ SparseFp16.dq +:+ "C" +:+ SparseFp16.dq +:+ " __global__ __launch_bounds__(32) void template_op_kernel0(half* __restrict__ dispatched_input, int* __restrict__ indices1_s, int* __restrict__ locations1_s, half* __restrict__ reshaped_input, half* __restrict__ grad_gates1_s) {
  // [thread_extent] blockIdx.x = 2048
  // [thread_extent] threadIdx.y = 1
  // [thread_extent] threadIdx.x = 32
  half grad_gates1_s_rf[1];
  grad_gates1_s_rf[(0)] = __float2half_rn(0.000000e+00f);
  for (int HIDDEN_outer = 0; HIDDEN_outer < 64; ++HIDDEN_outer) {
    grad_gates1_s_rf[(0)] = (grad_gates1_s_rf[(0)] + ((locations1_s[(((int)blockIdx.x))] < capacity) ? (dispatched_input[(((((indices1_s[(((int)blockIdx.x))] * (2048 * capacity)) + (locations1_s[(((int)blockIdx.x))] * 2048)) + (HIDDEN_outer * 32)) + ((int)threadIdx.x)))] * reshaped_input[((((((int)blockIdx.x) * 2048) + (HIDDEN_outer * 32)) + ((int)threadIdx.x)))]) : __float2half_rn(0.000000e+00f)));
  }
  half red_buf0[1];
  uint mask[1];
  half t0[1];
  red_buf0[(0)] = grad_gates1_s_rf[(0)];
  mask[(0)] = __activemask();
  t0[(0)] = __shfl_down_sync(mask[(0)], red_buf0[(0)], 16, 32);
  red_buf0[(0)] = (red_buf0[(0)] + t0[(0)]);
  t0[(0)] = __shfl_down_sync(mask[(0)], red_buf0[(0)], 8, 32);
  red_buf0[(0)] = (red_buf0[(0)] + t0[(0)]);
  t0[(0)] = __shfl_down_sync(mask[(0)], red_buf0[(0)], 4, 32);
  red_buf0[(0)] = (red_buf0[(0)] + t0[(0)]);
  t0[(0)] = __shfl_down_sync(mask[(0)], red_buf0[(0)], 2, 32);
  red_buf0[(0)] = (red_buf0[(0)] + t0[(0)]);
  t0[(0)] = __shfl_down_sync(mask[(0)], red_buf0[(0)], 1, 32);
  red_buf0[(0)] = (red_buf0[(0)] + t0[(0)]);
  red_buf0[(0)] = __shfl_sync(mask[(0)], red_buf0[(0)], 0, 32);
  if (((int)threadIdx.x) == 0) {
    grad_gates1_s[(((int)blockIdx.x))] = red_buf0[(0)];
  }
}
".





(** The five templates of the module. *)
Definition all_templates : list string :=
  [ func_fwd_stage_hip_template; func_fwd_stage_cuda_template;
    func_bwd_gate_hip_template; func_bwd_gate_cuda_template;
    SparseFp16.func_bwd_data_template ].

(** The first line of every template, up to the token. *)
Definition define_line : string := nl +:+ "#define capacity (".

(** *** The forward wrapper of the HIP section (lines 38-43)

    Tensors are object references of a type [T]; what the wrapper does is
    recorded, in order, as the calls that reach the back end and the
    in-place copies into tensors. *)

Inductive wrapper_error : Type :=
| IndexError (msg : string).

Inductive effect (T : Type) : Type :=
| Launch (inv : Moe.invocation T)
| Copy_ (dst src : T).
Arguments Launch {T} inv.
Arguments Copy_ {T} dst src.

Section FuncFwd.
Context {T : Type}.
(** [torch.zeros(t.shape, dtype=torch.float32, device=t.device)] *)
Variable zeros_float32_like : T -> T.
(** [x.to(t.dtype)] *)
Variable to_dtype_of : T -> T -> T.

(** [func_fwd] of the HIP section, called with the arguments [inputs]:
    [inputs = list(inputs)], [output = inputs[-1]],
    [inputs[-1] = torch.zeros(...)], the call of [func_fwd_stage] with the
    list as arguments, [output.copy_(inputs[-1].to(output.dtype))]. *)
Definition func_fwd_hip (stage : Moe.func) (inputs : list T)
  : wrapper_error + list (effect T) :=
  match last inputs with
  | None => inl (IndexError "list index out of range")
  | Some output =>
      let scratch := zeros_float32_like output in
      let inputs' := <[pred (length inputs) := scratch]> inputs in
      inr ((Launch <$> Moe.call stage inputs' [])
           ++ [Copy_ output (to_dtype_of scratch output)])
  end.
End FuncFwd.

(** ** Overlapping calls of [create], place by place *)

(** One of the two front-ends with its module globals. *)
Inductive front_end : Type :=
| FE_moe (g : Moe.globals)
| FE_tutel (g : Tutel.globals).

Definition fe_hip (fe : front_end) : bool :=
  match fe with
  | FE_moe g => Moe.IS_HIP_EXTENSION g
  | FE_tutel g => Tutel.IS_HIP_EXTENSION g
  end.

(** the recognized name the front-end gives to a handle *)
Definition fe_recognized (fe : front_end) (c : Z) : string :=
  match fe with
  | FE_moe _ => Moe.recognized c
  | FE_tutel g => Tutel.recognized c (Tutel.dist_rank g)
  end.

(** a thread that has just entered [create(source)] *)
Definition fe_spawn (fe : front_end) (source : string) : thread :=
  match fe with
  | FE_moe g => Moe.spawn g source
  | FE_tutel g => Tutel.spawn g source
  end.

(** the text a call leaves under the recognized name *)
Definition fe_text (fe : front_end) (source : string) : string :=
  preamble (fe_hip fe) +:+ source.

(** Where a call of [create] stands: before which statement, and with
    which handle [c] and which draw [n] of [tempfile.mktemp()] in its
    local variables. *)
Inductive place : Type :=
| at_test
| at_init
| at_store
| at_load
| at_incr (c : Z)
| at_key (c : Z)
| at_mktemp (c : Z)
| at_open (c : Z) (n : nat)
| at_write_preamble (c : Z) (n : nat)
| at_write_source (c : Z) (n : nat)
| at_close (c : Z) (n : nat)
| at_rename (c : Z) (n : nat)
| at_end (c : Z) (n : nat).

(** the statements from [temp_loc = ...] on *)
Definition fe_staging (fe : front_end) : list stmt :=
  [ Act make_temp_loc ] ++ write_temp (fe_hip fe) ++
  [ Act (rename_temp match fe with
                     | FE_moe _ => Moe.recognized_of
                     | FE_tutel _ => Tutel.recognized_of
                     end) ].

(** the statements behind [JitKernel.__CTX__ += 1] *)
Definition fe_after_incr (fe : front_end) : list stmt :=
  match fe with
  | FE_moe _ => fe_staging fe
  | FE_tutel g => Act (set_key (Tutel.dist_rank g)) :: fe_staging fe
  end.

(** the statements a call at a place still has to run *)
Definition rest_at (fe : front_end) (p : place) : list stmt :=
  match p with
  | at_test => t_cont (fe_spawn fe "")
  | at_init => [Act do_cuda_init; Act store_CTX_0; Act load_CTX; Act incr_CTX] ++ fe_after_incr fe
  | at_store => [Act store_CTX_0; Act load_CTX; Act incr_CTX] ++ fe_after_incr fe
  | at_load => [Act load_CTX; Act incr_CTX] ++ fe_after_incr fe
  | at_incr _ => [Act incr_CTX] ++ fe_after_incr fe
  | at_key _ => fe_after_incr fe
  | at_mktemp _ => fe_staging fe
  | at_open _ _ => drop 1 (fe_staging fe)
  | at_write_preamble _ _ => drop 2 (fe_staging fe)
  | at_write_source _ _ => drop 3 (fe_staging fe)
  | at_close _ _ => drop 4 (fe_staging fe)
  | at_rename _ _ => drop 5 (fe_staging fe)
  | at_end _ _ => []
  end.

(** the key a call holds once [key = dist_rank] has run *)
Definition fe_key (fe : front_end) : option Z :=
  match fe with
  | FE_moe _ => None
  | FE_tutel g => Some (Tutel.dist_rank g)
  end.

(** the local variables of a call at a place *)
Definition locals_at (fe : front_end) (names : nat -> string)
    (source : string) (p : place) : frame :=
  match p with
  | at_test | at_init | at_store | at_load => enter source
  | at_incr c | at_key c => Frame source (Some c) None None
  | at_mktemp c => Frame source (Some c) (fe_key fe) None
  | at_open c n | at_write_preamble c n | at_write_source c n
  | at_close c n | at_rename c n | at_end c n =>
      Frame source (Some c) (fe_key fe) (Some (temp_name (names n) c))
  end.

Definition thread_at (fe : front_end) (names : nat -> string)
    (sp : string * place) : thread :=
  Thread (locals_at fe names sp.1 sp.2) (rest_at fe sp.2).

(** the draw of [tempfile.mktemp()] a call holds *)
Definition draw_of (p : place) : option nat :=
  match p with
  | at_open _ n | at_write_preamble _ n | at_write_source _ n
  | at_close _ n | at_rename _ n | at_end _ n => Some n
  | _ => None
  end.

(** the places at which the counter is read *)
Definition reads_CTX (p : place) : bool :=
  match p with
  | at_load | at_incr _ => true
  | _ => false
  end.

(** what a call that is writing has under its temporary name *)
Definition written_at (fe : front_end) (names : nat -> string)
    (fs : gmap string string) (sp : string * place) : Prop :=
  match sp.2 with
  | at_write_preamble c n => fs !! temp_name (names n) c = Some ""
  | at_write_source c n =>
      fs !! temp_name (names n) c = Some ("" +:+ preamble (fe_hip fe))
  | at_close c n | at_rename c n =>
      fs !! temp_name (names n) c = Some (("" +:+ preamble (fe_hip fe)) +:+ sp.1)
  | _ => True
  end.

(** What holds of the process and of the calls under way at every moment:
    the names of [tempfile.mktemp()] are those of the start, a call about
    to read the counter finds it set, the calls hold different draws, all
    of them already made, a call that is writing has under its temporary
    name what it has written so far, and every recognized name holds what
    it held at the start or the whole text of one of the sources. *)
Record consistent (fe : front_end) (w0 : world) (sources : list string)
    (w : world) (calls : list (string * place)) : Prop := Consistent {
  c_sources : calls.*1 = sources;
  c_names : tempfile_names w = tempfile_names w0;
  c_counter : forall sp, sp ∈ calls -> reads_CTX sp.2 = true ->
                is_Some (JitKernel_CTX w);
  c_drawn : forall sp n, sp ∈ calls -> draw_of sp.2 = Some n ->
              (n < mktemp_calls w)%nat;
  c_draws : forall i j sp sq n, i <> j ->
              calls !! i = Some sp -> calls !! j = Some sq ->
              draw_of sp.2 = Some n -> draw_of sq.2 <> Some n;
  c_written : forall sp, sp ∈ calls ->
                written_at fe (tempfile_names w0) (files w) sp;
  c_recognized : forall h,
      files w !! fe_recognized fe h = files w0 !! fe_recognized fe h
      \/ exists src, src ∈ sources
           /\ files w !! fe_recognized fe h = Some (fe_text fe src)
}.

(** the places behind [JitKernel.__CTX__ += 1] *)
Definition past_incr (p : place) : bool :=
  match p with
  | at_test | at_init | at_store | at_load | at_incr _ => false
  | _ => true
  end.

(** the handle a call holds in [__ctx__] *)
Definition handle_at (p : place) : option Z :=
  match p with
  | at_test | at_init | at_store | at_load => None
  | at_incr c | at_key c | at_mktemp c
  | at_open c _ | at_write_preamble c _ | at_write_source c _
  | at_close c _ | at_rename c _ | at_end c _ => Some c
  end.

(** how many of the calls have incremented the counter *)
Definition incremented (calls : list (string * place)) : nat :=
  sum_list ((fun sp : string * place => if past_incr sp.2 then 1%nat else 0%nat) <$> calls).

(** The counter and the handles in terms of the increments made so far:
    the counter is at most their number, and so is the handle of a call,
    its own increment not counted. *)
Record in_range (w : world) (calls : list (string * place)) : Prop := InRange {
  r_counter : forall v, JitKernel_CTX w = Some v ->
                0 <= v <= Z.of_nat (incremented calls);
  r_handles : forall sp c, sp ∈ calls -> handle_at sp.2 = Some c ->
                0 <= c
                /\ c + (if past_incr sp.2 then 1 else 0) <= Z.of_nat (incremented calls)
}.

(** * Facts about the embedded code *)

Ltac unfold_M :=
  unfold load_CTX, incr_CTX, make_temp_loc, open_temp, write_preamble,
    write_source, close_temp, rename_temp, do_cuda_init, store_CTX_0, set_key,
    Moe.recognized_of, Moe.return_func, Tutel.recognized_of, Tutel.return_func,
    read_CTX, get_ctx, get_key, get_temp_loc, tempfile_mktemp, torch_cuda_init,
    fp_write, os_rename, os_open_w, set_files, set_CTX, raise, lift, enter,
    py_import, py_assert, try_except, resolve_IS_HIP_EXTENSION, resolve_dist_rank,
    mbind, M_bind, mret, M_ret in *.

Ltac simpl_M :=
  cbn -[preamble temp_name Moe.recognized Tutel.recognized
        insert lookup delete Z.add] in *.

Ltac run_M := repeat (unfold_M; simpl_M; rewrite ?lookup_insert_eq).

Section PyStrFacts.
Import PyStr.

Lemma sapp_nil_l (s : string) : "" +:+ s = s.
Proof. reflexivity. Qed.

Lemma sapp_cons (c : ascii) (a b : string) :
  String c a +:+ b = String c (a +:+ b).
Proof. reflexivity. Qed.

Lemma sapp_nil_r (s : string) : s +:+ "" = s.
Proof. induction s as [|c s IH]; [done|]. by rewrite sapp_cons, IH. Qed.

Lemma sapp_assoc (a b c : string) : (a +:+ b) +:+ c = a +:+ b +:+ c.
Proof. induction a as [|x a IH]; [done|]. by rewrite !sapp_cons, IH. Qed.

Lemma sapp_length (a b : string) :
  String.length (a +:+ b) = (String.length a + String.length b)%nat.
Proof. induction a as [|x a IH]; [done|]. rewrite sapp_cons. simpl. by rewrite IH. Qed.

Lemma chars_app (a b : string) : chars (a +:+ b) = chars a ++ chars b.
Proof. induction a as [|x a IH]; [done|]. rewrite sapp_cons. simpl. by rewrite IH. Qed.

Lemma sapp_nonempty_r (a b : string) : b <> "" -> a +:+ b <> "".
Proof. destruct a; [done|]. by rewrite sapp_cons. Qed.

Lemma last_char_app (a b : string) :
  b <> "" -> last_char (a +:+ b) = last_char b.
Proof.
  intros Hb. induction a as [|x a IH]; [done|].
  rewrite sapp_cons. simpl. rewrite IH.
  pose proof (sapp_nonempty_r a b Hb). by destruct (a +:+ b).
Qed.

Lemma startswith_spec (p s : string) :
  startswith p s = true <-> exists b, s = p +:+ b.
Proof.
  revert s. induction p as [|a p IH]; intros s; simpl.
  - split; [eauto|done].
  - destruct s as [|b s].
    + split; [done|]. intros [r Hr]. by rewrite sapp_cons in Hr.
    + case_decide as Hab.
      * subst b. rewrite IH. split.
        -- intros [r ->]. by exists r.
        -- intros [r Hr]. rewrite sapp_cons in Hr. injection Hr as ->. eauto.
      * split; [done|]. intros [r Hr]. rewrite sapp_cons in Hr. congruence.
Qed.

Lemma startswith_app (p b : string) : startswith p (p +:+ b) = true.
Proof. apply startswith_spec. eauto. Qed.

Lemma startswith_shorter (p x y : string) :
  startswith p (x +:+ y) = true ->
  (String.length p <= String.length x)%nat ->
  startswith p x = true.
Proof.
  revert x. induction p as [|a p IH]; intros x Hp Hlen; [done|].
  destruct x as [|b x]; simpl in Hlen; [lia|].
  rewrite sapp_cons in Hp. simpl in *.
  case_decide; [|done]. apply IH; [done|lia].
Qed.

Lemma init_last (s : string) :
  s <> "" -> exists l, s = init s +:+ String l "".
Proof.
  induction s as [|c s IH]; [done|]. intros _.
  destruct s as [|c' s]; [by exists c|].
  destruct IH as [l Hl]; [done|]. exists l.
  change (init (String c (String c' s))) with (String c (init (String c' s))).
  by rewrite sapp_cons, <- Hl.
Qed.

Lemma init_length (s : string) :
  String.length (init s) = (String.length s - 1)%nat.
Proof.
  induction s as [|c s IH]; [done|].
  destruct s as [|c' s]; [done|].
  change (init (String c (String c' s))) with (String c (init (String c' s))).
  simpl String.length in *. lia.
Qed.

Lemma occurs_cons (old : string) (c : ascii) (s : string) :
  occurs old (String c s) -> startswith old (String c s) = true \/ occurs old s.
Proof.
  intros [a [b E]]. destruct a as [|x a].
  - left. apply startswith_spec. by exists b.
  - right. rewrite sapp_cons in E. injection E as _ ->. by exists a, b.
Qed.

Lemma occurs_cons_r (old : string) (c : ascii) (s : string) :
  occurs old s -> occurs old (String c s).
Proof. intros [a [b ->]]. by exists (String c a), b. Qed.

Lemma occurs_nil (old : string) : old <> "" -> ~ occurs old "".
Proof.
  intros Hne [a [b E]]. apply (f_equal String.length) in E.
  rewrite !sapp_length in E. destruct old; [done|]. simpl in E. lia.
Qed.

Lemma contains_spec (old s : string) :
  contains old s = true <-> occurs old s.
Proof.
  induction s as [|c s IH].
  - simpl. rewrite orb_false_r, startswith_spec. split.
    + intros [b Hb]. by exists "", b.
    + intros [a [b E]]. destruct a as [|x a]; [by exists b|].
      by rewrite sapp_cons in E.
  - change (contains old (String c s))
      with (startswith old (String c s) || contains old s).
    rewrite orb_true_iff, IH. split.
    + intros [H|H]; [|by apply occurs_cons_r].
      apply startswith_spec in H as [b Hb]. by exists "", b.
    + apply occurs_cons.
Qed.

Lemma contains_false (old s : string) :
  contains old s = false -> ~ occurs old s.
Proof. intros H Ho. apply contains_spec in Ho. congruence. Qed.

(** An occurrence cannot start inside a stretch of characters that the
    searched text does not use. *)
Lemma occurs_skip_foreign (old u v : string) :
  old <> "" ->
  (forall x, x ∈ chars u -> x ∉ chars old) ->
  occurs old (u +:+ v) -> occurs old v.
Proof.
  intros Hne. induction u as [|x u IH]; intros Hu Hocc; [done|].
  rewrite sapp_cons in Hocc. apply occurs_cons in Hocc as [Hs|Hocc].
  - destruct old as [|o old]; [done|]. simpl in Hs.
    case_decide as E; [|done]. subst x.
    exfalso. apply (Hu o); simpl; apply elem_of_cons; by left.
  - apply IH; [|done]. intros y Hy. apply Hu. simpl. apply elem_of_cons. by right.
Qed.

Lemma replace_scan_skip (old new a b : string) :
  replace_scan old new (String.length a) (a +:+ b) = replace_scan old new 0 b.
Proof. induction a as [|x a IH]; [done|]. by rewrite sapp_cons. Qed.

Section replace.
Variables old new : string.
Hypothesis old_nonempty : old <> "".

Local Abbreviation R := (replace_scan old new 0).

Lemma replace_nonempty (s : string) : replace old new s = R s.
Proof. unfold replace. by destruct old. Qed.

Lemma replace_scan_match (b : string) : R (old +:+ b) = new +:+ R b.
Proof.
  pose proof (startswith_app old b) as Hs.
  destruct old as [|c o] eqn:E; [done|].
  rewrite sapp_cons in *. simpl replace_scan. simpl in Hs. rewrite Hs.
  f_equal. rewrite Nat.sub_0_r. apply replace_scan_skip.
Qed.

Lemma replace_scan_nomatch (c : ascii) (s : string) :
  startswith old (String c s) = false -> R (String c s) = String c (R s).
Proof. intros H. simpl replace_scan. by rewrite H. Qed.

(** Text without the token is left as it is. *)
Lemma replace_scan_absent (s : string) : ~ occurs old s -> R s = s.
Proof.
  induction s as [|c s IH]; intros Hn; [done|].
  rewrite replace_scan_nomatch.
  - f_equal. apply IH. intros H. by apply Hn, occurs_cons_r.
  - apply not_true_is_false. intros H. apply Hn.
    apply startswith_spec in H as [b ->]. by exists "", b.
Qed.

(** The first occurrence is replaced and the scan goes on behind it. *)
Lemma replace_scan_first (a b : string) :
  ~ occurs old (a +:+ init old) ->
  R (a +:+ old +:+ b) = a +:+ new +:+ R b.
Proof.
  induction a as [|c a IH]; intros Hn.
  - apply replace_scan_match.
  - rewrite !sapp_cons. rewrite replace_scan_nomatch.
    + f_equal. apply IH. intros H. by apply Hn, occurs_cons_r.
    + apply not_true_is_false. intros H. apply Hn.
      destruct (init_last old old_nonempty) as [l Hl].
      assert (startswith old (String c a +:+ init old) = true) as Hp.
      { apply (startswith_shorter _ _ (String l "" +:+ b)).
        - rewrite sapp_assoc, <- (sapp_assoc (init old)), <- Hl.
          by rewrite sapp_cons.
        - rewrite sapp_length, init_length. simpl.
          destruct old; [done|]. simpl. lia. }
      apply startswith_spec in Hp as [r Hr]. exists "", r. by rewrite Hr.
Qed.

Section foreign.
Variables (d : ascii) (new' : string).
Hypothesis new_head : new = String d new'.
Hypothesis new_foreign : forall x, x ∈ chars new -> x ∉ chars old.

(** A prefix of the result that avoids the first character of [new]
    is a prefix of the input as well. *)
Lemma replace_scan_prefix_back (s t : string) :
  d ∉ chars t -> startswith t (R s) = true -> startswith t s = true.
Proof.
  revert t. induction s as [|c s IH]; intros t Hd Ht; [done|].
  destruct t as [|x t]; [done|].
  simpl replace_scan in Ht.
  destruct (startswith old (String c s)) eqn:E.
  - rewrite new_head, sapp_cons in Ht. simpl in Ht.
    case_decide as Hx; [|done]. subst x.
    exfalso. apply Hd. simpl. apply elem_of_cons. by left.
  - simpl in Ht |- *. case_decide; [|done].
    apply IH; [|done]. intros H'. apply Hd. simpl. apply elem_of_cons. by right.
Qed.

(** After the replacement no occurrence of the token is left. *)
Lemma replace_scan_no_occurrence (s : string) : ~ occurs old (R s).
Proof.
  remember (String.length s) as n eqn:Hn.
  revert s Hn. induction (lt_wf n) as [n _ IH]; intros s ->.
  destruct s as [|c s]; [by apply occurs_nil|].
  destruct (startswith old (String c s)) eqn:E.
  - apply startswith_spec in E as [b Eb]. rewrite Eb, replace_scan_match.
    intros H. apply occurs_skip_foreign in H; [|done..].
    revert H. apply (IH (String.length b)); [|done].
    rewrite Eb, sapp_length. destruct old; [done|]. simpl. lia.
  - rewrite replace_scan_nomatch by done.
    intros [H|H]%occurs_cons.
    + rewrite <- (replace_scan_nomatch c s E) in H.
      apply replace_scan_prefix_back in H; [congruence|].
      apply new_foreign. rewrite new_head. simpl. apply elem_of_cons. by left.
    + revert H. apply (IH (String.length s)); [simpl; lia|done].
Qed.
End foreign.
End replace.

End PyStrFacts.

(** ** Decimal strings *)

Section StrFacts.
Import PyStr.

Lemma pretty_N_char_decimal (k : N) : decimal_char (pretty_N_char k).
Proof.
  unfold decimal_char, pretty_N_char. simpl chars.
  repeat case_match; set_solver.
Qed.

Lemma pretty_N_go_decimal (x : N) (s : string) :
  (forall c, c ∈ chars s -> decimal_char c) ->
  forall c, c ∈ chars (pretty_N_go x s) -> decimal_char c.
Proof.
  revert s. induction (N.lt_wf_0 x) as [x _ IH]; intros s Hs.
  destruct (decide (0 < x)%N) as [Hx|Hx].
  - rewrite pretty_N_go_step by done. apply IH; [by apply N.div_lt|].
    intros c [->|Hc]%elem_of_cons; [apply pretty_N_char_decimal|by apply Hs].
  - assert (x = 0%N) as -> by lia. by rewrite pretty_N_go_0.
Qed.

Lemma pretty_N_go_length (x : N) (s : string) :
  (String.length s <= String.length (pretty_N_go x s))%nat.
Proof.
  revert s. induction (N.lt_wf_0 x) as [x _ IH]; intros s.
  destruct (decide (0 < x)%N) as [Hx|Hx].
  - rewrite pretty_N_go_step by done.
    etrans; [|apply IH; by apply N.div_lt]. simpl. lia.
  - assert (x = 0%N) as -> by lia. by rewrite pretty_N_go_0.
Qed.

Lemma pretty_N_decimal (x : N) (c : ascii) :
  c ∈ chars (pretty x) -> decimal_char c.
Proof.
  unfold pretty, pretty_N. case_decide.
  - unfold decimal_char. simpl. set_solver.
  - apply pretty_N_go_decimal. simpl. intros ? ?%elem_of_nil. done.
Qed.

Lemma pretty_N_nonempty (x : N) : pretty x <> "".
Proof.
  unfold pretty, pretty_N. case_decide; [done|].
  rewrite pretty_N_go_step by lia. intros E.
  pose proof (pretty_N_go_length (x `div` 10)
                (String (pretty_N_char (x `mod` 10)) "")) as Hl.
  rewrite E in Hl. simpl in Hl. lia.
Qed.

(** [str(n)] is made of decimal digits and possibly a minus sign. *)
Lemma str_decimal (n : Z) (c : ascii) : c ∈ chars (str n) -> decimal_char c.
Proof.
  unfold str, pretty, pretty_Z. destruct n as [|p|p].
  - unfold decimal_char. simpl. set_solver.
  - apply pretty_N_decimal.
  - rewrite sapp_cons, sapp_nil_l. simpl chars.
    intros [->|Hc]%elem_of_cons.
    + unfold decimal_char. simpl. set_solver.
    + by apply (pretty_N_decimal (N.pos p)).
Qed.

Lemma str_nonempty (n : Z) : str n <> "".
Proof.
  unfold str, pretty, pretty_Z. destruct n as [|p|p]; [done| |done].
  apply (pretty_N_nonempty (N.pos p)).
Qed.

End StrFacts.

Section CreateFacts.
Import PyStr.

Lemma temp_name_last (base : string) (c : Z) :
  last_char (temp_name base c) = Some "E"%char.
Proof.
  unfold temp_name.
  rewrite last_char_app by (by rewrite sapp_cons).
  rewrite last_char_app by (by apply sapp_nonempty_r).
  by rewrite last_char_app.
Qed.

(** The temporary name ends in [.MoE], recognized names end in [.cu]. *)
Lemma temp_name_not_recognized_moe (base : string) (c c' : Z) :
  temp_name base c <> Moe.recognized c'.
Proof.
  intros E. apply (f_equal last_char) in E. rewrite temp_name_last in E.
  unfold Moe.recognized in E.
  rewrite last_char_app in E by (by apply sapp_nonempty_r).
  by rewrite last_char_app in E.
Qed.

Lemma temp_name_not_recognized_tutel (base : string) (c c' k : Z) :
  temp_name base c <> Tutel.recognized c' k.
Proof.
  intros E. apply (f_equal last_char) in E. rewrite temp_name_last in E.
  unfold Tutel.recognized in E.
  rewrite last_char_app in E by (by do 3 apply sapp_nonempty_r).
  rewrite last_char_app in E by (by do 2 apply sapp_nonempty_r).
  rewrite last_char_app in E by (by apply sapp_nonempty_r).
  by rewrite last_char_app in E.
Qed.

Lemma staged_files (fs : gmap string string) (t dst a b c : string) :
  <[dst := c]> (delete t (<[t := c]> (<[t := b]> (<[t := a]> fs))))
  = <[dst := c]> (delete t fs).
Proof. by rewrite delete_insert_eq, !delete_insert_eq. Qed.

(** [create] always returns: it takes the counter as the handle, moves the
    counter on by one, and leaves the text under the recognized name. *)
Lemma moe_create_eq (g : Moe.globals) (src : string) (w : world) :
  Moe.create g src w =
    (after_create w (Moe.recognized (next_handle w))
       (preamble (Moe.IS_HIP_EXTENSION g) +:+ src),
     inr (Moe.Func (next_handle w))).
Proof.
  unfold Moe.create, Moe.create_body, allocate_handle, write_temp,
    after_create, next_temp_loc, next_handle.
  destruct w as [[c|] ci fs names mc]; run_M;
    by rewrite staged_files.
Qed.

Lemma tutel_create_eq (g : Tutel.globals) (src : string) (w : world) :
  Tutel.create g src w =
    (after_create w (Tutel.recognized (next_handle w) (Tutel.dist_rank g))
       (preamble (Tutel.IS_HIP_EXTENSION g) +:+ src),
     inr (Tutel.Func (next_handle w) (Tutel.dist_rank g))).
Proof.
  unfold Tutel.create, Tutel.create_body, allocate_handle, write_temp,
    after_create, next_temp_loc, next_handle.
  destruct w as [[c|] ci fs names mc]; run_M;
    by rewrite staged_files.
Qed.

Lemma steps_finished (n : nat) (f : frame) (w : world) :
  steps n (Thread f []) w = (w, inr (Thread f [])).
Proof. induction n as [|n IH]; [done|]. simpl. unfold mbind, M_bind. simpl. apply IH. Qed.

End CreateFacts.

(** ** Handles of successive calls *)

Section ForEach.
Context {F : Type} (create : string -> M F) (mk : Z -> F).
Hypothesis create_spec : forall src w, exists dst text,
  create src w = (after_create w dst text, inr (mk (next_handle w))).

Lemma for_each_handles (sources : list string) (w : world) :
  exists w',
    for_each create sources w
    = (w', inr (mk <$> ((fun k => next_handle w + Z.of_nat k) <$> seq 0 (length sources))))
    /\ (sources = [] -> w' = w)
    /\ (sources <> [] ->
        JitKernel_CTX w' = Some (next_handle w + Z.of_nat (length sources))
        /\ cuda_inits w' = if hasattr_CTX w then cuda_inits w else S (cuda_inits w)).
Proof.
  revert w. induction sources as [|src rest IH]; intros w.
  - exists w. by repeat split.
  - destruct (create_spec src w) as (dst & text & Hc).
    destruct (IH (after_create w dst text)) as (w' & Hrest & Hnil & Hcons).
    exists w'. split; [|split; [done|]].
    + simpl for_each. unfold mbind, M_bind at 1. rewrite Hc.
      unfold mbind, M_bind at 1. rewrite Hrest. unfold mret, M_ret.
      do 2 f_equal. simpl length. rewrite <- cons_seq, <- fmap_S_seq, !fmap_cons.
      rewrite Z.add_0_r. do 2 f_equal. rewrite <- !list_fmap_compose.
      apply list_fmap_ext. intros _ k _. simpl. unfold next_handle at 1. simpl. lia.
    + intros _. destruct rest as [|src' rest'].
      * rewrite Hnil by done. simpl. split; [f_equal; lia|done].
      * destruct Hcons as [Hctx Hinit]; [done|]. rewrite Hctx, Hinit.
        split; [|done]. f_equal. unfold next_handle at 1. simpl length. simpl. lia.
Qed.
End ForEach.

(** Calls scheduled one after the other take the handles 0 and 1. *)
Lemma sequential_schedule_handles :
  handles_of (interleave sequential_schedule
                (Moe.spawn (Moe.Globals false) <$> ["a"; "b"]) fresh_process)
  = Some [Some 0; Some 1]
  /\ handles_of (interleave sequential_schedule
                   (Tutel.spawn (Tutel.Globals false 0) <$> ["a"; "b"]) fresh_process)
     = Some [Some 0; Some 1].
Proof. split; by vm_compute. Qed.

(** C1, as stated for overlapping calls, fails: two calls of [create] that
    overlap inside one process can both take handle 0, in either front-end. *)
Lemma C1_overlapping_calls_share_handle :
  ~ handles_dense_under_every_schedule (Moe.spawn (Moe.Globals false))
  /\ ~ handles_dense_under_every_schedule (Tutel.spawn (Tutel.Globals false 0)).
Proof.
  split; intros H.
  - specialize (H ["a"; "b"] racing_schedule fresh_process [Some 0; Some 0] eq_refl).
    assert (handles_of (interleave racing_schedule
              (Moe.spawn (Moe.Globals false) <$> ["a"; "b"]) fresh_process)
            = Some [Some 0; Some 0]) as E by (vm_compute; reflexivity).
    apply H in E. simpl in E.
    apply Permutation_cons_inv, Permutation_length_1_inv in E. discriminate.
  - specialize (H ["a"; "b"] racing_schedule fresh_process [Some 0; Some 0] eq_refl).
    assert (handles_of (interleave racing_schedule
              (Tutel.spawn (Tutel.Globals false 0) <$> ["a"; "b"]) fresh_process)
            = Some [Some 0; Some 0]) as E by (vm_compute; reflexivity).
    apply H in E. simpl in E.
    apply Permutation_cons_inv, Permutation_length_1_inv in E. discriminate.
Qed.

Lemma moe_create_spec (g : Moe.globals) (src : string) (w : world) :
  exists dst text,
    Moe.create g src w = (after_create w dst text, inr (Moe.Func (next_handle w))).
Proof. eexists _, _. apply moe_create_eq. Qed.

Lemma tutel_create_spec (g : Tutel.globals) (src : string) (w : world) :
  exists dst text,
    Tutel.create g src w
    = (after_create w dst text,
       inr ((fun c => Tutel.Func c (Tutel.dist_rank g)) (next_handle w))).
Proof. eexists _, _. apply tutel_create_eq. Qed.

(** C1 (calls made one after another).  In a process that has not called
    [create] before, the first call runs the device initialization once and
    takes handle 0; every call takes the value of the counter as its handle
    and moves the counter on by one; so the calls made one after another on
    any list of sources return the handles 0, 1, ..., N-1 in call order, in
    both front-ends. *)
Theorem C1_handles_in_call_order (w : world) (sources : list string) :
  JitKernel_CTX w = None ->
  (forall g, exists w',
      for_each (Moe.create g) sources w
      = (w', inr (Moe.Func <$> (Z.of_nat <$> seq 0 (length sources))))
      /\ (sources <> [] ->
          JitKernel_CTX w' = Some (Z.of_nat (length sources))
          /\ cuda_inits w' = S (cuda_inits w)))
  /\ (forall g, exists w',
      for_each (Tutel.create g) sources w
      = (w', inr ((fun c => Tutel.Func c (Tutel.dist_rank g))
                    <$> (Z.of_nat <$> seq 0 (length sources))))
      /\ (sources <> [] ->
          JitKernel_CTX w' = Some (Z.of_nat (length sources))
          /\ cuda_inits w' = S (cuda_inits w)))
  /\ (forall g src, exists w1,
      Moe.create g src w = (w1, inr (Moe.Func 0))
      /\ JitKernel_CTX w1 = Some 1 /\ cuda_inits w1 = S (cuda_inits w))
  /\ (forall g src, exists w1,
      Tutel.create g src w = (w1, inr (Tutel.Func 0 (Tutel.dist_rank g)))
      /\ JitKernel_CTX w1 = Some 1 /\ cuda_inits w1 = S (cuda_inits w))
  /\ (forall g src w0 c, JitKernel_CTX w0 = Some c -> exists w1,
      Moe.create g src w0 = (w1, inr (Moe.Func c))
      /\ JitKernel_CTX w1 = Some (c + 1) /\ cuda_inits w1 = cuda_inits w0)
  /\ (forall g src w0 c, JitKernel_CTX w0 = Some c -> exists w1,
      Tutel.create g src w0 = (w1, inr (Tutel.Func c (Tutel.dist_rank g)))
      /\ JitKernel_CTX w1 = Some (c + 1) /\ cuda_inits w1 = cuda_inits w0).
Proof.
  intros Hfresh.
  assert (next_handle w = 0) as Hn by (unfold next_handle; by rewrite Hfresh).
  assert (hasattr_CTX w = false) as Hh by (unfold hasattr_CTX; by rewrite Hfresh).
  assert ((fun k => next_handle w + Z.of_nat k) <$> seq 0 (length sources)
          = Z.of_nat <$> seq 0 (length sources)) as Hseq.
  { apply list_fmap_ext. intros _ k _. lia. }
  repeat split.
  - intros g.
    destruct (for_each_handles (Moe.create g) Moe.Func (moe_create_spec g) sources w)
      as (w' & Hrun & _ & Hcons).
    exists w'. rewrite Hrun, Hseq. split; [done|]. intros Hne.
    destruct (Hcons Hne) as [-> ->]. by rewrite Hn, Hh.
  - intros g.
    destruct (for_each_handles (Tutel.create g) _ (tutel_create_spec g) sources w)
      as (w' & Hrun & _ & Hcons).
    exists w'. rewrite Hrun, Hseq. split; [done|]. intros Hne.
    destruct (Hcons Hne) as [-> ->]. by rewrite Hn, Hh.
  - intros g src. eexists. rewrite moe_create_eq, Hn. split; [done|].
    unfold after_create. simpl. by rewrite Hn, Hh.
  - intros g src. eexists. rewrite tutel_create_eq, Hn. split; [done|].
    unfold after_create. simpl. by rewrite Hn, Hh.
  - intros g src w0 c Hc. eexists. rewrite moe_create_eq.
    unfold after_create, next_handle, hasattr_CTX. rewrite Hc. by simpl.
  - intros g src w0 c Hc. eexists. rewrite tutel_create_eq.
    unfold after_create, next_handle, hasattr_CTX. rewrite Hc. by simpl.
Qed.

Lemma C1_handles_in_call_order_witness :
  JitKernel_CTX fresh_process = None
  /\ exists w',
       for_each (Tutel.create (Tutel.Globals false 3)) ["k0"; "k1"; "k2"] fresh_process
       = (w', inr [Tutel.Func 0 3; Tutel.Func 1 3; Tutel.Func 2 3])
       /\ JitKernel_CTX w' = Some 3 /\ cuda_inits w' = 1%nat.
Proof.
  split; [reflexivity|].
  destruct (C1_handles_in_call_order fresh_process ["k0"; "k1"; "k2"] eq_refl)
    as (_ & Ht & _).
  destruct (Ht (Tutel.Globals false 3)) as (w' & Hrun & Hend).
  exists w'. split; [exact Hrun|]. apply Hend. discriminate.
Defined.

(** ** Where the artifact goes and what it holds *)

Lemma after_create_lookup (w : world) (dst text : string) :
  files (after_create w dst text) !! dst = Some text.
Proof. unfold after_create. simpl. apply lookup_insert_eq. Qed.

(** C2.  The recognized path is a function of the handle (and, in the
    distributed front-end, of the identity) alone: [create] leaves the
    artifact at [/tmp/<h>.cu], respectively [/tmp/<h>-<k>.cu], whatever the
    process state and the source are, so two materializations with the same
    handle (and identity) put their artifacts under the same path. *)
Theorem C2_recognized_path_from_handle :
  (forall g src w, exists w' h,
      Moe.create g src w = (w', inr (Moe.Func h))
      /\ files w'
         = <["/tmp/" +:+ PyStr.str h +:+ ".cu"
              := preamble (Moe.IS_HIP_EXTENSION g) +:+ src]>
             (delete (next_temp_loc w) (files w)))
  /\ (forall g src w, exists w' h,
      Tutel.create g src w = (w', inr (Tutel.Func h (Tutel.dist_rank g)))
      /\ files w'
         = <["/tmp/" +:+ PyStr.str h +:+ "-" +:+ PyStr.str (Tutel.dist_rank g) +:+ ".cu"
              := preamble (Tutel.IS_HIP_EXTENSION g) +:+ src]>
             (delete (next_temp_loc w) (files w)))
  /\ (forall g1 g2 s1 s2 w1 w2 w1' w2' f1 f2,
      Moe.create g1 s1 w1 = (w1', inr f1) ->
      Moe.create g2 s2 w2 = (w2', inr f2) ->
      Moe.captured_ctx f1 = Moe.captured_ctx f2 ->
      exists path,
        path = "/tmp/" +:+ PyStr.str (Moe.captured_ctx f1) +:+ ".cu"
        /\ files w1' !! path = Some (preamble (Moe.IS_HIP_EXTENSION g1) +:+ s1)
        /\ files w2' !! path = Some (preamble (Moe.IS_HIP_EXTENSION g2) +:+ s2))
  /\ (forall g1 g2 s1 s2 w1 w2 w1' w2' f1 f2,
      Tutel.create g1 s1 w1 = (w1', inr f1) ->
      Tutel.create g2 s2 w2 = (w2', inr f2) ->
      Tutel.captured_ctx f1 = Tutel.captured_ctx f2 ->
      Tutel.captured_key f1 = Tutel.captured_key f2 ->
      exists path,
        path = "/tmp/" +:+ PyStr.str (Tutel.captured_ctx f1) +:+ "-"
               +:+ PyStr.str (Tutel.captured_key f1) +:+ ".cu"
        /\ files w1' !! path = Some (preamble (Tutel.IS_HIP_EXTENSION g1) +:+ s1)
        /\ files w2' !! path = Some (preamble (Tutel.IS_HIP_EXTENSION g2) +:+ s2))
  /\ Moe.recognized 0 = "/tmp/0.cu"
  /\ Moe.recognized 1 = "/tmp/1.cu"
  /\ Tutel.recognized 2 3 = "/tmp/2-3.cu".
Proof.
  repeat split.
  - intros g src w. eexists _, _. by rewrite moe_create_eq.
  - intros g src w. eexists _, _. by rewrite tutel_create_eq.
  - intros g1 g2 s1 s2 w1 w2 w1' w2' f1 f2 H1 H2 Hh.
    rewrite moe_create_eq in H1, H2.
    injection H1 as <- <-. injection H2 as <- <-. simpl in Hh.
    eexists. split; [reflexivity|]. split.
    + apply after_create_lookup.
    + simpl. fold (Moe.recognized (next_handle w1)). rewrite Hh.
      apply after_create_lookup.
  - intros g1 g2 s1 s2 w1 w2 w1' w2' f1 f2 H1 H2 Hh Hk.
    rewrite tutel_create_eq in H1, H2.
    injection H1 as <- <-. injection H2 as <- <-. simpl in Hh, Hk.
    eexists. split; [reflexivity|]. split.
    + apply after_create_lookup.
    + simpl. fold (Tutel.recognized (next_handle w1) (Tutel.dist_rank g1)).
      rewrite Hh, Hk. apply after_create_lookup.
Qed.

(** C4.  The file left at the recognized path holds the platform preamble
    followed by the source text as it was passed in; the preamble is the
    HIP include pair when the flag is set and the CUDA pair otherwise, and
    the two differ. *)
Theorem C4_artifact_is_preamble_then_source :
  (forall g src w, exists w',
      Moe.create g src w = (w', inr (Moe.Func (next_handle w)))
      /\ files w' !! Moe.recognized (next_handle w)
         = Some (preamble (Moe.IS_HIP_EXTENSION g) +:+ src))
  /\ (forall g src w, exists w',
      Tutel.create g src w
      = (w', inr (Tutel.Func (next_handle w) (Tutel.dist_rank g)))
      /\ files w' !! Tutel.recognized (next_handle w) (Tutel.dist_rank g)
         = Some (preamble (Tutel.IS_HIP_EXTENSION g) +:+ src))
  /\ preamble true
     = "#include <hip/hip_runtime.h>" +:+ nl +:+ "#include <hip/hip_fp16.h>" +:+ nl
  /\ preamble false
     = "#include <cuda_runtime.h>" +:+ nl +:+ "#include <cuda_fp16.h>" +:+ nl
  /\ preamble true <> preamble false.
Proof.
  repeat split.
  - intros g src w. eexists. rewrite moe_create_eq. split; [done|].
    apply after_create_lookup.
  - intros g src w. eexists. rewrite tutel_create_eq. split; [done|].
    apply after_create_lookup.
  - discriminate.
Qed.

(** ** Calling the closure *)

(** C5.  The closure returned by [create] hands the buffers it is called
    with to the back end as they are, in the order given, together with the
    handle taken at creation (and the identity key in the distributed
    front-end); successive calls reach the back end one by one in call
    order. *)
Theorem C5_call_forwards_buffers :
  (forall (B : Type) g src w, exists w' fn,
      Moe.create g src w = (w', inr fn)
      /\ forall (inputs inputs' : list B) backend,
           Moe.call fn inputs backend
           = backend ++ [Moe.Invoke inputs (next_handle w)]
           /\ Moe.call fn inputs' (Moe.call fn inputs backend)
              = backend ++ [Moe.Invoke inputs (next_handle w);
                            Moe.Invoke inputs' (next_handle w)])
  /\ (forall (B : Type) g src w, exists w' fn,
      Tutel.create g src w = (w', inr fn)
      /\ forall (inputs inputs' : list B) backend,
           Tutel.call fn inputs backend
           = backend ++ [Tutel.Invoke inputs (next_handle w) (Tutel.dist_rank g)]
           /\ Tutel.call fn inputs' (Tutel.call fn inputs backend)
              = backend ++ [Tutel.Invoke inputs (next_handle w) (Tutel.dist_rank g);
                            Tutel.Invoke inputs' (next_handle w) (Tutel.dist_rank g)])
  /\ (forall (B : Type) (a b c : B),
        Moe.call (Moe.Func 2) [a; b; c] [] = [Moe.Invoke [a; b; c] 2])
  /\ (forall (B : Type) (a b c : B),
        Tutel.call (Tutel.Func 2 3) [a; b; c] [] = [Tutel.Invoke [a; b; c] 2 3]).
Proof.
  repeat split.
  - intros B g src w. eexists _, _. rewrite moe_create_eq. split; [done|].
    intros inputs inputs' backend. unfold Moe.call. simpl.
    by rewrite <- app_assoc.
  - intros B g src w. eexists _, _. rewrite tutel_create_eq. split; [done|].
    intros inputs inputs' backend. unfold Tutel.call. simpl.
    by rewrite <- app_assoc.
Qed.

(** ** Staging: temporary name first, recognized name by one rename *)

Section Staging.

Ltac at_step n :=
  destruct n as [|n];
  [ run_M; eexists _, _; split; [reflexivity|]; simpl;
    rewrite ?lookup_insert_ne
      by first [apply temp_name_not_recognized_moe
               |apply temp_name_not_recognized_tutel];
    auto
  | ].

(** Whatever number of steps one call has taken, the recognized file is
    as it was before the call or holds the whole text. *)
Lemma moe_trace (g : Moe.globals) (src : string) (w : world) (n : nat) :
  exists w_n th,
    steps n (Moe.spawn g src) w = (w_n, inr th)
    /\ (files w_n !! Moe.recognized (next_handle w)
        = files w !! Moe.recognized (next_handle w)
        \/ files w_n !! Moe.recognized (next_handle w)
           = Some (preamble (Moe.IS_HIP_EXTENSION g) +:+ src)).
Proof.
  unfold Moe.spawn, Moe.create_body, allocate_handle, write_temp, next_handle.
  destruct w as [[c|] ci fs names mc].
  - do 9 at_step n.
    run_M. rewrite steps_finished. eexists _, _; split; [reflexivity|]. simpl.
    right. apply lookup_insert_eq.
  - do 11 at_step n.
    run_M. rewrite steps_finished. eexists _, _; split; [reflexivity|]. simpl.
    right. apply lookup_insert_eq.
Qed.

Lemma tutel_trace (g : Tutel.globals) (src : string) (w : world) (n : nat) :
  exists w_n th,
    steps n (Tutel.spawn g src) w = (w_n, inr th)
    /\ (files w_n !! Tutel.recognized (next_handle w) (Tutel.dist_rank g)
        = files w !! Tutel.recognized (next_handle w) (Tutel.dist_rank g)
        \/ files w_n !! Tutel.recognized (next_handle w) (Tutel.dist_rank g)
           = Some (preamble (Tutel.IS_HIP_EXTENSION g) +:+ src)).
Proof.
  unfold Tutel.spawn, Tutel.create_body, allocate_handle, write_temp, next_handle.
  destruct w as [[c|] ci fs names mc].
  - do 10 at_step n.
    run_M. rewrite steps_finished. eexists _, _; split; [reflexivity|]. simpl.
    right. apply lookup_insert_eq.
  - do 12 at_step n.
    run_M. rewrite steps_finished. eexists _, _; split; [reflexivity|]. simpl.
    right. apply lookup_insert_eq.
Qed.

(** There is a point of the call at which the whole text is under the
    temporary name, the recognized file is still untouched and only the
    rename is left to do; the rename is then one step, and it leaves the
    process in the state [create] returns in. *)
Lemma moe_rename_last (g : Moe.globals) (src : string) (w : world) :
  let dst := Moe.recognized (next_handle w) in
  let text := preamble (Moe.IS_HIP_EXTENSION g) +:+ src in
  exists m w_m f,
    steps m (Moe.spawn g src) w
    = (w_m, inr (Thread f [Act (rename_temp Moe.recognized_of)]))
    /\ files w_m !! next_temp_loc w = Some text
    /\ files w_m !! dst = files w !! dst
    /\ l_temp_loc f = Some (next_temp_loc w)
    /\ step (Thread f [Act (rename_temp Moe.recognized_of)]) w_m
       = (after_create w dst text, inr (Thread f []))
    /\ Moe.create g src w = (after_create w dst text, inr (Moe.Func (next_handle w)))
    /\ files (after_create w dst text) !! dst = Some text
    /\ files (after_create w dst text) !! next_temp_loc w = None.
Proof.
  intros dst text. subst dst text.
  assert (files (after_create w (Moe.recognized (next_handle w)) (preamble (Moe.IS_HIP_EXTENSION g) +:+ src))
            !! next_temp_loc w = None) as Hgone.
  { unfold after_create. simpl.
    rewrite lookup_insert_ne by (intros E; symmetry in E; revert E; apply temp_name_not_recognized_moe).
    apply lookup_delete_eq. }
  pose proof (moe_create_eq g src w) as Hc.
  pose proof (after_create_lookup w (Moe.recognized (next_handle w)) (preamble (Moe.IS_HIP_EXTENSION g) +:+ src))
    as Hthere.
  cut (exists m w_m f,
    steps m (Moe.spawn g src) w
    = (w_m, inr (Thread f [Act (rename_temp Moe.recognized_of)]))
    /\ files w_m !! next_temp_loc w
       = Some (preamble (Moe.IS_HIP_EXTENSION g) +:+ src)
    /\ files w_m !! Moe.recognized (next_handle w) = files w !! Moe.recognized (next_handle w)
    /\ l_temp_loc f = Some (next_temp_loc w)
    /\ step (Thread f [Act (rename_temp Moe.recognized_of)]) w_m
       = (after_create w (Moe.recognized (next_handle w)) (preamble (Moe.IS_HIP_EXTENSION g) +:+ src),
          inr (Thread f []))).
  { intros (m & w_m & f & H1 & H2 & H3 & H4 & H5). exists m, w_m, f. by repeat split. }
  clear Hgone Hc Hthere.
  unfold Moe.spawn, Moe.create_body, allocate_handle, write_temp,
    after_create, next_temp_loc, next_handle.
  destruct w as [[c|] ci fs names mc].
  - exists 8%nat. run_M. eexists _, _. split; [reflexivity|].
    run_M. rewrite staged_files.
    rewrite !lookup_insert_ne by apply temp_name_not_recognized_moe.
    by repeat split.
  - exists 10%nat. run_M. eexists _, _. split; [reflexivity|].
    run_M. rewrite staged_files.
    rewrite !lookup_insert_ne by apply temp_name_not_recognized_moe.
    by repeat split.
Qed.

Lemma tutel_rename_last (g : Tutel.globals) (src : string) (w : world) :
  let dst := Tutel.recognized (next_handle w) (Tutel.dist_rank g) in
  let text := preamble (Tutel.IS_HIP_EXTENSION g) +:+ src in
  exists m w_m f,
    steps m (Tutel.spawn g src) w
    = (w_m, inr (Thread f [Act (rename_temp Tutel.recognized_of)]))
    /\ files w_m !! next_temp_loc w = Some text
    /\ files w_m !! dst = files w !! dst
    /\ l_temp_loc f = Some (next_temp_loc w)
    /\ step (Thread f [Act (rename_temp Tutel.recognized_of)]) w_m
       = (after_create w dst text, inr (Thread f []))
    /\ Tutel.create g src w
       = (after_create w dst text,
          inr (Tutel.Func (next_handle w) (Tutel.dist_rank g)))
    /\ files (after_create w dst text) !! dst = Some text
    /\ files (after_create w dst text) !! next_temp_loc w = None.
Proof.
  intros dst text. subst dst text.
  assert (files (after_create w (Tutel.recognized (next_handle w) (Tutel.dist_rank g)) (preamble (Tutel.IS_HIP_EXTENSION g) +:+ src))
            !! next_temp_loc w = None) as Hgone.
  { unfold after_create. simpl.
    rewrite lookup_insert_ne by (intros E; symmetry in E; revert E; apply temp_name_not_recognized_tutel).
    apply lookup_delete_eq. }
  pose proof (tutel_create_eq g src w) as Hc.
  pose proof (after_create_lookup w (Tutel.recognized (next_handle w) (Tutel.dist_rank g)) (preamble (Tutel.IS_HIP_EXTENSION g) +:+ src))
    as Hthere.
  cut (exists m w_m f,
    steps m (Tutel.spawn g src) w
    = (w_m, inr (Thread f [Act (rename_temp Tutel.recognized_of)]))
    /\ files w_m !! next_temp_loc w
       = Some (preamble (Tutel.IS_HIP_EXTENSION g) +:+ src)
    /\ files w_m !! Tutel.recognized (next_handle w) (Tutel.dist_rank g) = files w !! Tutel.recognized (next_handle w) (Tutel.dist_rank g)
    /\ l_temp_loc f = Some (next_temp_loc w)
    /\ step (Thread f [Act (rename_temp Tutel.recognized_of)]) w_m
       = (after_create w (Tutel.recognized (next_handle w) (Tutel.dist_rank g)) (preamble (Tutel.IS_HIP_EXTENSION g) +:+ src),
          inr (Thread f []))).
  { intros (m & w_m & f & H1 & H2 & H3 & H4 & H5). exists m, w_m, f. by repeat split. }
  clear Hgone Hc Hthere.
  unfold Tutel.spawn, Tutel.create_body, allocate_handle, write_temp,
    after_create, next_temp_loc, next_handle.
  destruct w as [[c|] ci fs names mc].
  - exists 9%nat. run_M. eexists _, _. split; [reflexivity|].
    run_M. rewrite staged_files.
    rewrite !lookup_insert_ne by apply temp_name_not_recognized_tutel.
    by repeat split.
  - exists 11%nat. run_M. eexists _, _. split; [reflexivity|].
    run_M. rewrite staged_files.
    rewrite !lookup_insert_ne by apply temp_name_not_recognized_tutel.
    by repeat split.
Qed.

End Staging.

(** C3.  In every call of [create] the temporary name differs from the
    recognized name; the whole text is first under the temporary name while
    the recognized file is still untouched; the one step left then is the
    rename, which puts the whole text under the recognized name and removes
    the temporary name; and at no point of the call, however many steps it
    has taken, does the recognized file hold anything but what it held
    before the call or the whole text, so this is all a reader of the file
    system can find there between two steps. *)
Theorem C3_recognized_file_never_partial :
  (forall g src w,
      let dst := Moe.recognized (next_handle w) in
      let text := preamble (Moe.IS_HIP_EXTENSION g) +:+ src in
      next_temp_loc w <> dst
      /\ (forall n, exists w_n th,
            steps n (Moe.spawn g src) w = (w_n, inr th)
            /\ (files w_n !! dst = files w !! dst \/ files w_n !! dst = Some text))
      /\ (exists m w_m f,
            steps m (Moe.spawn g src) w
            = (w_m, inr (Thread f [Act (rename_temp Moe.recognized_of)]))
            /\ files w_m !! next_temp_loc w = Some text
            /\ files w_m !! dst = files w !! dst
            /\ l_temp_loc f = Some (next_temp_loc w)
            /\ step (Thread f [Act (rename_temp Moe.recognized_of)]) w_m
               = (after_create w dst text, inr (Thread f []))
            /\ Moe.create g src w
               = (after_create w dst text, inr (Moe.Func (next_handle w)))
            /\ files (after_create w dst text) !! dst = Some text
            /\ files (after_create w dst text) !! next_temp_loc w = None))
  /\ (forall g src w,
      let dst := Tutel.recognized (next_handle w) (Tutel.dist_rank g) in
      let text := preamble (Tutel.IS_HIP_EXTENSION g) +:+ src in
      next_temp_loc w <> dst
      /\ (forall n, exists w_n th,
            steps n (Tutel.spawn g src) w = (w_n, inr th)
            /\ (files w_n !! dst = files w !! dst \/ files w_n !! dst = Some text))
      /\ (exists m w_m f,
            steps m (Tutel.spawn g src) w
            = (w_m, inr (Thread f [Act (rename_temp Tutel.recognized_of)]))
            /\ files w_m !! next_temp_loc w = Some text
            /\ files w_m !! dst = files w !! dst
            /\ l_temp_loc f = Some (next_temp_loc w)
            /\ step (Thread f [Act (rename_temp Tutel.recognized_of)]) w_m
               = (after_create w dst text, inr (Thread f []))
            /\ Tutel.create g src w
               = (after_create w dst text,
                  inr (Tutel.Func (next_handle w) (Tutel.dist_rank g)))
            /\ files (after_create w dst text) !! dst = Some text
            /\ files (after_create w dst text) !! next_temp_loc w = None)).
Proof.
  split; intros g src w dst text; subst dst text; split_and!.
  - apply temp_name_not_recognized_moe.
  - apply moe_trace.
  - apply moe_rename_last.
  - apply temp_name_not_recognized_tutel.
  - apply tutel_trace.
  - apply tutel_rename_last.
Qed.

(** ** Specialization of a kernel template *)

Section Specialize.
Import PyStr SparseFp16.

Lemma placeholder_nonempty : placeholder <> "".
Proof. done. Qed.

Lemma decimal_not_in_placeholder (c : ascii) :
  decimal_char c -> c ∉ chars placeholder.
Proof.
  unfold decimal_char. revert c. apply Forall_forall.
  by apply (bool_decide_unpack _).
Qed.

Lemma str_foreign (capacity : Z) (x : ascii) :
  x ∈ chars (str capacity) -> x ∉ chars placeholder.
Proof. intros H. by apply decimal_not_in_placeholder, (str_decimal capacity). Qed.

Lemma specialize_no_placeholder (template : string) (capacity : Z) :
  ~ occurs placeholder (specialize template capacity).
Proof.
  unfold specialize. rewrite replace_nonempty by done.
  destruct (str capacity) as [|d new'] eqn:E; [by destruct (str_nonempty capacity)|].
  apply (replace_scan_no_occurrence _ _ placeholder_nonempty d new' eq_refl).
  intros x Hx. apply (str_foreign capacity). by rewrite E.
Qed.

Lemma specialize_absent (template : string) (capacity : Z) :
  ~ occurs placeholder template -> specialize template capacity = template.
Proof.
  intros H. unfold specialize. rewrite replace_nonempty by done.
  by apply replace_scan_absent.
Qed.

Lemma specialize_first (a b : string) (capacity : Z) :
  ~ occurs placeholder (a +:+ "@capacity") ->
  specialize (a +:+ placeholder +:+ b) capacity
  = a +:+ str capacity +:+ specialize b capacity.
Proof.
  intros H. unfold specialize. rewrite !replace_nonempty by done.
  by apply replace_scan_first.
Qed.

End Specialize.

(** C6, as stated, fails: the token of the code is [@capacity@], so the
    template ["cap=@CAP@;"] comes back as it is. *)
Lemma C6_CAP_token_is_not_replaced :
  SparseFp16.specialize "cap=@CAP@;" 128 = "cap=@CAP@;"
  /\ SparseFp16.specialize "cap=@CAP@;" 128 <> "cap=128;".
Proof. split; [by vm_compute|]. vm_compute. discriminate. Qed.

(** C6 (with the token of the code).  Specialization is the textual
    replacement of the token [@capacity@] by [str(capacity)]: no occurrence
    of the token is left afterwards, a template without the token comes back
    as it is, the first occurrence is replaced and the rest is treated
    alike; ["cap=@capacity@;"] with capacity 128 gives ["cap=128;"], and the
    template of [func_bwd_data] gets the number into its [#define] line and
    stays as it is otherwise. *)
Theorem C6_specialize_replaces_capacity_token :
  (forall template capacity,
      ~ PyStr.occurs "@capacity@" (SparseFp16.specialize template capacity))
  /\ (forall template capacity,
      ~ PyStr.occurs "@capacity@" template ->
      SparseFp16.specialize template capacity = template)
  /\ (forall a b capacity,
      ~ PyStr.occurs "@capacity@" (a +:+ "@capacity") ->
      SparseFp16.specialize (a +:+ "@capacity@" +:+ b) capacity
      = a +:+ PyStr.str capacity +:+ SparseFp16.specialize b capacity)
  /\ SparseFp16.specialize "cap=@capacity@;" 128 = "cap=128;"
  /\ (exists tail,
      SparseFp16.func_bwd_data_template
      = (nl +:+ "#define capacity (") +:+ "@capacity@" +:+ tail
      /\ forall capacity,
           SparseFp16.specialize SparseFp16.func_bwd_data_template capacity
           = (nl +:+ "#define capacity (") +:+ PyStr.str capacity +:+ tail)
  /\ (forall g capacity w, exists w',
      SparseFp16.func_bwd_data g capacity w = (w', inr (Moe.Func (next_handle w)))
      /\ files w' !! Moe.recognized (next_handle w)
         = Some (preamble (Moe.IS_HIP_EXTENSION g)
                 +:+ SparseFp16.specialize SparseFp16.func_bwd_data_template capacity)).
Proof.
  split_and!.
  - apply specialize_no_placeholder.
  - apply specialize_absent.
  - apply specialize_first.
  - by vm_compute.
  - exists (String.substring 29 1049 SparseFp16.func_bwd_data_template).
    split; [by vm_compute|]. intros capacity.
    assert (SparseFp16.func_bwd_data_template
            = (nl +:+ "#define capacity (") +:+ SparseFp16.placeholder
              +:+ String.substring 29 1049 SparseFp16.func_bwd_data_template) as E
      by (by vm_compute).
    rewrite E at 1. rewrite specialize_first.
    + rewrite specialize_absent; [done|]. apply contains_false. by vm_compute.
    + apply contains_false. by vm_compute.
  - intros g capacity w. eexists. unfold SparseFp16.func_bwd_data.
    rewrite moe_create_eq. split; [done|]. apply after_create_lookup.
Qed.

(** ** Importing the front-end modules *)

Section ImportFacts.
Import PyStr.

Lemma moe_import_eq (h : host) (w : world) :
  Moe.import_jit h w =
    if installed h "custom_kernel"
    then (w, inr (Moe.Globals
                    (match cpp_extension_IS_HIP_EXTENSION h with
                     | inr b => b
                     | inl _ => false
                     end)))
    else (w, inl (ModuleNotFoundError "No module named 'custom_kernel'")).
Proof.
  unfold Moe.import_jit. run_M.
  destruct (installed h "custom_kernel"); [|done].
  by destruct (cpp_extension_IS_HIP_EXTENSION h).
Qed.

Lemma tutel_import_eq (h : host) (w : world) :
  Tutel.import_jit h w =
    if cuda_is_available h
    then if installed h "tutel_custom_kernel"
         then (w, inr (Tutel.Globals
                         (match cpp_extension_IS_HIP_EXTENSION h with
                          | inr b => b
                          | inl _ => false
                          end)
                         (match dist_get_rank h with
                          | inr r => r
                          | inl _ => 0
                          end)))
         else (w, inl (Exception Tutel.no_extension))
    else (w, inl (AssertionError Tutel.cuda_only)).
Proof.
  unfold Tutel.import_jit. run_M.
  destruct (cuda_is_available h); [|done]. simpl.
  destruct (installed h "tutel_custom_kernel"); [|done]. simpl.
  by destruct (cpp_extension_IS_HIP_EXTENSION h), (dist_get_rank h).
Qed.

Lemma moe_session_import_fails (h : host) (sources : list string) (w w' : world) (e : exn) :
  Moe.import_jit h w = (w', inl e) -> Moe.session h sources w = (w', inl e).
Proof. intros H. unfold Moe.session, mbind, M_bind. by rewrite H. Qed.

Lemma tutel_session_import_fails (h : host) (sources : list string) (w w' : world) (e : exn) :
  Tutel.import_jit h w = (w', inl e) -> Tutel.session h sources w = (w', inl e).
Proof. intros H. unfold Tutel.session, mbind, M_bind. by rewrite H. Qed.

End ImportFacts.

(** C7.  When the native extension module cannot be imported, the import
    of the front-end module raises at once, before any call of [create]:
    the process state is untouched and no closure is returned.  In
    src/moe/jit.py the error is the import error naming [custom_kernel]; in
    tutel/jit.py it is the exception naming the Custom Kernel Extension,
    unless the assertion on CUDA in front of it has already failed. *)
Theorem C7_missing_extension_stops_import
    (h : host) (sources : list string) (w : world) :
  (installed h "custom_kernel" = false ->
     Moe.import_jit h w
     = (w, inl (ModuleNotFoundError "No module named 'custom_kernel'"))
     /\ Moe.session h sources w
        = (w, inl (ModuleNotFoundError "No module named 'custom_kernel'")))
  /\ (installed h "tutel_custom_kernel" = false ->
     (cuda_is_available h = true ->
        Tutel.import_jit h w
        = (w, inl (Exception "Cannot import JIT optimized kernels. Did you forget to install Custom Kernel Extension?"))
        /\ Tutel.session h sources w
           = (w, inl (Exception "Cannot import JIT optimized kernels. Did you forget to install Custom Kernel Extension?")))
     /\ (cuda_is_available h = false ->
        Tutel.session h sources w
        = (w, inl (AssertionError "This version of Tutel MoE only supports CUDA. More backends will be supported soon.")))
     /\ exists e, Tutel.session h sources w = (w, inl e))
  /\ PyStr.occurs "custom_kernel" "No module named 'custom_kernel'"
  /\ PyStr.occurs "Custom Kernel Extension"
       "Cannot import JIT optimized kernels. Did you forget to install Custom Kernel Extension?".
Proof.
  split_and!.
  - intros Hm.
    assert (Moe.import_jit h w
            = (w, inl (ModuleNotFoundError "No module named 'custom_kernel'"))) as Hi
      by (by rewrite moe_import_eq, Hm).
    split; [done|]. by apply moe_session_import_fails.
  - intros Hm. split_and!.
    + intros Hc.
      assert (Tutel.import_jit h w = (w, inl (Exception Tutel.no_extension))) as Hi
        by (by rewrite tutel_import_eq, Hc, Hm).
      split; [done|]. by apply tutel_session_import_fails.
    + intros Hc. apply tutel_session_import_fails.
      by rewrite tutel_import_eq, Hc.
    + destruct (cuda_is_available h) eqn:Hc; eexists;
        apply tutel_session_import_fails; by rewrite tutel_import_eq, Hc, ?Hm.
  - apply contains_spec. by vm_compute.
  - apply contains_spec. by vm_compute.
Qed.

Lemma C7_missing_extension_stops_import_witness :
  installed host_without_extension "custom_kernel" = false
  /\ installed host_without_extension "tutel_custom_kernel" = false
  /\ cuda_is_available host_without_extension = true
  /\ Moe.session host_without_extension ["k0"; "k1"] fresh_process
     = (fresh_process, inl (ModuleNotFoundError "No module named 'custom_kernel'"))
  /\ Tutel.session host_without_extension ["k0"; "k1"] fresh_process
     = (fresh_process,
        inl (Exception "Cannot import JIT optimized kernels. Did you forget to install Custom Kernel Extension?")).
Proof.
  destruct (C7_missing_extension_stops_import
              host_without_extension ["k0"; "k1"] fresh_process)
    as (Hm & Ht & _).
  do 3 (split; [reflexivity|]). split.
  - apply Hm. reflexivity.
  - apply Ht; reflexivity.
Defined.

(** C8.  In tutel/jit.py, when [dist.get_rank()] raises, [dist_rank] is 0:
    every recognized path ends in [-0.cu] and every call of the back end
    carries the key 0. *)
Theorem C8_identity_defaults_to_0
    (h : host) (e : exn) (w w' : world) (g : Tutel.globals) :
  dist_get_rank h = inl e ->
  Tutel.import_jit h w = (w', inr g) ->
  Tutel.dist_rank g = 0
  /\ forall src w0, exists w1,
       Tutel.create g src w0 = (w1, inr (Tutel.Func (next_handle w0) 0))
       /\ files w1 !! ("/tmp/" +:+ PyStr.str (next_handle w0) +:+ "-0.cu")
          = Some (preamble (Tutel.IS_HIP_EXTENSION g) +:+ src)
       /\ forall (B : Type) (inputs : list B) backend,
            Tutel.call (Tutel.Func (next_handle w0) 0) inputs backend
            = backend ++ [Tutel.Invoke inputs (next_handle w0) 0].
Proof.
  intros Hr Hi. rewrite tutel_import_eq, Hr in Hi.
  destruct (cuda_is_available h); [|done].
  destruct (installed h "tutel_custom_kernel"); [|done].
  injection Hi as <- <-. split; [done|].
  intros src w0. eexists. rewrite tutel_create_eq. simpl. split; [done|].
  split; [|done]. apply (after_create_lookup w0 (Tutel.recognized (next_handle w0) 0)).
Qed.

Lemma C8_identity_defaults_to_0_witness :
  dist_get_rank host_plain = inl (Exception "Default process group has not been initialized")
  /\ Tutel.import_jit host_plain fresh_process
     = (fresh_process, inr (Tutel.Globals false 0))
  /\ exists w1,
       Tutel.create (Tutel.Globals false 0) "k0" fresh_process
       = (w1, inr (Tutel.Func 0 0))
       /\ files w1 !! "/tmp/0-0.cu" = Some (preamble false +:+ "k0").
Proof.
  split; [reflexivity|]. split; [reflexivity|].
  destruct (C8_identity_defaults_to_0 host_plain _ fresh_process fresh_process
              (Tutel.Globals false 0) eq_refl eq_refl) as [_ H].
  destruct (H "k0" fresh_process) as (w1 & Hc & Hf & _).
  exists w1. split; [exact Hc|exact Hf].
Defined.

(** C9 as the specification words it does not hold: on a host where neither
    runtime family is found, the default of the flag defers nothing for
    tutel/jit.py.  The bare [except] of lines 13-16 would give [False], but
    the assertion of line 6 comes first: the import raises, no call of
    [create] is reached, no preamble is chosen and no file is staged. *)
Lemma C9_no_runtime_host_fails_at_import :
  cuda_is_available host_without_runtime = false
  /\ cpp_extension_IS_HIP_EXTENSION host_without_runtime
     = inl (ModuleNotFoundError "No module named 'torch.utils.cpp_extension'")
  /\ installed host_without_runtime "tutel_custom_kernel" = true
  /\ resolve_IS_HIP_EXTENSION host_without_runtime fresh_process
     = (fresh_process, inr false)
  /\ Tutel.import_jit host_without_runtime fresh_process
     = (fresh_process,
        inl (AssertionError "This version of Tutel MoE only supports CUDA. More backends will be supported soon."))
  /\ Tutel.session host_without_runtime ["k0"] fresh_process
     = (fresh_process,
        inl (AssertionError "This version of Tutel MoE only supports CUDA. More backends will be supported soon."))
  /\ files (Tutel.session host_without_runtime ["k0"] fresh_process).1
     !! Tutel.recognized 0 0 = None.
Proof. split_and!; by vm_compute. Qed.

(** C9 (where CUDA is available).  When the import of [IS_HIP_EXTENSION]
    raises, the bare [except] keeps the error inside the module and the flag
    is [False].  The import of src/moe/jit.py then goes through wherever
    [custom_kernel] can be imported.  The import of tutel/jit.py goes
    through where CUDA is available and [tutel_custom_kernel] can be
    imported; where CUDA is not available it raises the assertion error of
    line 6, and so does every session, whatever the sources.  On a host
    with CUDA, [create] writes the CUDA include pair in front of the source;
    when the counter is not set yet it has run [torch.cuda.init()] once
    before that, so the preamble is only reached after the device
    initialization. *)
Theorem C9_platform_flag_defaults_to_cuda (h : host) (e : exn) :
  cpp_extension_IS_HIP_EXTENSION h = inl e ->
  (forall w, resolve_IS_HIP_EXTENSION h w = (w, inr false))
  /\ (installed h "custom_kernel" = true ->
      forall w, Moe.import_jit h w = (w, inr (Moe.Globals false)))
  /\ (cuda_is_available h = true -> installed h "tutel_custom_kernel" = true ->
      forall w, exists rank,
        Tutel.import_jit h w = (w, inr (Tutel.Globals false rank)))
  /\ (cuda_is_available h = false ->
      forall sources w,
        Tutel.import_jit h w
        = (w, inl (AssertionError "This version of Tutel MoE only supports CUDA. More backends will be supported soon."))
        /\ Tutel.session h sources w
           = (w, inl (AssertionError "This version of Tutel MoE only supports CUDA. More backends will be supported soon.")))
  /\ (cuda_is_available h = true ->
      forall w w' g, Moe.import_jit h w = (w', inr g) ->
      Moe.IS_HIP_EXTENSION g = false
      /\ forall src w0, exists w1,
           Moe.create g src w0 = (w1, inr (Moe.Func (next_handle w0)))
           /\ files w1 !! Moe.recognized (next_handle w0)
              = Some (("#include <cuda_runtime.h>" +:+ nl
                       +:+ "#include <cuda_fp16.h>" +:+ nl) +:+ src)
           /\ (JitKernel_CTX w0 = None -> cuda_inits w1 = S (cuda_inits w0)))
  /\ (forall w w' g, Tutel.import_jit h w = (w', inr g) ->
      cuda_is_available h = true
      /\ Tutel.IS_HIP_EXTENSION g = false
      /\ forall src w0, exists w1,
           Tutel.create g src w0
           = (w1, inr (Tutel.Func (next_handle w0) (Tutel.dist_rank g)))
           /\ files w1 !! Tutel.recognized (next_handle w0) (Tutel.dist_rank g)
              = Some (("#include <cuda_runtime.h>" +:+ nl
                       +:+ "#include <cuda_fp16.h>" +:+ nl) +:+ src)
           /\ (JitKernel_CTX w0 = None -> cuda_inits w1 = S (cuda_inits w0))).
Proof.
  intros He. split_and!.
  - intros w. unfold resolve_IS_HIP_EXTENSION, try_except, lift. by rewrite He.
  - intros Hm w. by rewrite moe_import_eq, Hm, He.
  - intros Hc Hm w. eexists. by rewrite tutel_import_eq, Hc, Hm, He.
  - intros Hc sources w.
    assert (Tutel.import_jit h w = (w, inl (AssertionError Tutel.cuda_only))) as Hi
      by (by rewrite tutel_import_eq, Hc).
    split; [exact Hi|]. exact (tutel_session_import_fails h sources w w _ Hi).
  - intros _ w w' g Hi. rewrite moe_import_eq, He in Hi.
    destruct (installed h "custom_kernel"); [|done]. injection Hi as <- <-.
    split; [done|]. intros src w0. eexists. rewrite moe_create_eq.
    split; [done|]. split; [apply after_create_lookup|].
    intros H0. unfold after_create, hasattr_CTX. simpl. by rewrite H0.
  - intros w w' g Hi. rewrite tutel_import_eq, He in Hi.
    destruct (cuda_is_available h); [|done].
    destruct (installed h "tutel_custom_kernel"); [|done]. injection Hi as <- <-.
    split; [done|]. split; [done|]. intros src w0. eexists. rewrite tutel_create_eq.
    split; [done|]. split; [apply after_create_lookup|].
    intros H0. unfold after_create, hasattr_CTX. simpl. by rewrite H0.
Qed.

Lemma C9_platform_flag_defaults_to_cuda_witness :
  cpp_extension_IS_HIP_EXTENSION host_plain
  = inl (ModuleNotFoundError "No module named 'torch.utils.cpp_extension'")
  /\ cuda_is_available host_plain = true
  /\ Moe.import_jit host_plain fresh_process = (fresh_process, inr (Moe.Globals false))
  /\ exists w1,
       Moe.create (Moe.Globals false) "k0" fresh_process = (w1, inr (Moe.Func 0))
       /\ files w1 !! "/tmp/0.cu"
          = Some (("#include <cuda_runtime.h>" +:+ nl
                   +:+ "#include <cuda_fp16.h>" +:+ nl) +:+ "k0")
       /\ cuda_inits w1 = 1%nat.
Proof.
  split; [reflexivity|]. split; [reflexivity|].
  destruct (C9_platform_flag_defaults_to_cuda host_plain _ eq_refl)
    as (_ & Hm & _ & _ & Hc & _).
  split; [apply Hm; reflexivity|].
  destruct (Hc eq_refl fresh_process fresh_process (Moe.Globals false)
              (Hm eq_refl fresh_process)) as [_ H].
  destruct (H "k0" fresh_process) as (w1 & H1 & H2 & H3).
  exists w1. split; [exact H1|]. split; [exact H2|]. exact (H3 eq_refl).
Defined.

(** C10.  On a host without CUDA the import of tutel/jit.py fails with the
    assertion error whose message says that only CUDA is supported; this is
    before any call of [create], so the counter, the device initialization
    count and the file system are as they were and no closure exists. *)
Theorem C10_import_asserts_cuda (h : host) (sources : list string) (w : world) :
  cuda_is_available h = false ->
  Tutel.import_jit h w
  = (w, inl (AssertionError "This version of Tutel MoE only supports CUDA. More backends will be supported soon."))
  /\ Tutel.session h sources w
     = (w, inl (AssertionError "This version of Tutel MoE only supports CUDA. More backends will be supported soon."))
  /\ (forall w' r, Tutel.session h sources w = (w', r) ->
        JitKernel_CTX w' = JitKernel_CTX w
        /\ files w' = files w
        /\ cuda_inits w' = cuda_inits w
        /\ forall fns, r <> inr fns)
  /\ PyStr.occurs "only supports CUDA"
       "This version of Tutel MoE only supports CUDA. More backends will be supported soon.".
Proof.
  intros Hc.
  assert (Tutel.import_jit h w = (w, inl (AssertionError Tutel.cuda_only))) as Hi
    by (by rewrite tutel_import_eq, Hc).
  pose proof (tutel_session_import_fails h sources w w _ Hi) as Hs.
  split_and!; [done|done| |].
  - intros w' r Hr. rewrite Hs in Hr. injection Hr as <- <-. by split_and!.
  - apply contains_spec. by vm_compute.
Qed.

Lemma C10_import_asserts_cuda_witness :
  cuda_is_available host_without_cuda = false
  /\ Tutel.session host_without_cuda ["k0"; "k1"] fresh_process
     = (fresh_process,
        inl (AssertionError "This version of Tutel MoE only supports CUDA. More backends will be supported soon.")).
Proof.
  split; [reflexivity|].
  apply (C10_import_asserts_cuda host_without_cuda ["k0"; "k1"] fresh_process eq_refl).
Defined.

(** * Further properties of the front-ends *)

(** ** Recognized names of different kernels and peers *)

Section PathFacts.
Import PyStr.

Lemma sapp_cancel_r (a b r : string) : a +:+ r = b +:+ r -> a = b.
Proof.
  revert b. induction a as [|x a IH]; intros b E.
  - apply (f_equal String.length) in E. rewrite !sapp_length in E.
    destruct b; [done|]. simpl in E. lia.
  - destruct b as [|y b].
    + apply (f_equal String.length) in E. rewrite !sapp_length in E.
      simpl in E. lia.
    + rewrite !sapp_cons in E. injection E as -> E. f_equal. by apply IH.
Qed.

Lemma pretty_N_char_digit (k : N) : digit_char (pretty_N_char k).
Proof.
  unfold digit_char, pretty_N_char. simpl chars.
  repeat case_match; set_solver.
Qed.

Lemma pretty_N_go_digits (x : N) (s : string) :
  (forall c, c ∈ chars s -> digit_char c) ->
  forall c, c ∈ chars (pretty_N_go x s) -> digit_char c.
Proof.
  revert s. induction (N.lt_wf_0 x) as [x _ IH]; intros s Hs.
  destruct (decide (0 < x)%N) as [Hx|Hx].
  - rewrite pretty_N_go_step by done. apply IH; [by apply N.div_lt|].
    intros c [->|Hc]%elem_of_cons; [apply pretty_N_char_digit|by apply Hs].
  - assert (x = 0%N) as -> by lia. by rewrite pretty_N_go_0.
Qed.

(** [str(n)] of a number that is not negative is made of digits. *)
Lemma str_digits (n : Z) (c : ascii) :
  0 <= n -> c ∈ chars (str n) -> digit_char c.
Proof.
  intros Hn. unfold str, pretty, pretty_Z. destruct n as [|p|p]; [| |lia].
  - unfold digit_char. simpl. set_solver.
  - unfold pretty, pretty_positive, pretty, pretty_N. case_decide; [done|].
    apply pretty_N_go_digits. simpl. intros ? ?%elem_of_nil. done.
Qed.

Lemma digit_not_dash (c : ascii) : digit_char c -> c <> "-"%char.
Proof.
  unfold digit_char. intros H ->. revert H. simpl.
  rewrite !elem_of_cons, elem_of_nil. intros H. by repeat destruct H as [H|H].
Qed.

(** Two texts of the form digits, dash, rest agree only part by part. *)
Lemma dash_split (a a' b b' : string) :
  (forall c, c ∈ chars a -> digit_char c) ->
  (forall c, c ∈ chars a' -> digit_char c) ->
  a +:+ String "-" b = a' +:+ String "-" b' ->
  a = a' /\ b = b'.
Proof.
  revert a'. induction a as [|x a IH]; intros a' Ha Ha' E.
  - destruct a' as [|y a'].
    + rewrite !sapp_nil_l in E. by injection E as ->.
    + rewrite sapp_nil_l, sapp_cons in E. injection E as <- _.
      exfalso. apply (digit_not_dash "-"); [|done]. apply Ha'. simpl. by left.
  - destruct a' as [|y a'].
    + rewrite sapp_nil_l, sapp_cons in E. injection E as -> _.
      exfalso. apply (digit_not_dash "-"); [|done]. apply Ha. simpl. by left.
    + rewrite !sapp_cons in E. injection E as -> E.
      destruct (IH a') as [-> ->]; [| |done|done].
      * intros c Hc. apply Ha. simpl. by right.
      * intros c Hc. apply Ha'. simpl. by right.
Qed.

Lemma str_inj (n m : Z) : str n = str m -> n = m.
Proof. apply (inj pretty). Qed.

Lemma moe_recognized_inj (h1 h2 : Z) :
  Moe.recognized h1 = Moe.recognized h2 -> h1 = h2.
Proof.
  unfold Moe.recognized. intros E.
  apply (inj (String.app "/tmp/")) in E. by apply sapp_cancel_r, str_inj in E.
Qed.

Lemma tutel_recognized_inj_handle (h1 h2 k : Z) :
  Tutel.recognized h1 k = Tutel.recognized h2 k -> h1 = h2.
Proof.
  unfold Tutel.recognized. intros E.
  apply (inj (String.app "/tmp/")) in E. by apply sapp_cancel_r, str_inj in E.
Qed.

Lemma tutel_recognized_inj (h1 h2 k1 k2 : Z) :
  0 <= h1 -> 0 <= h2 ->
  Tutel.recognized h1 k1 = Tutel.recognized h2 k2 -> h1 = h2 /\ k1 = k2.
Proof.
  unfold Tutel.recognized. intros H1 H2 E.
  apply (inj (String.app "/tmp/")) in E.
  change (str h1 +:+ String "-" (str k1 +:+ ".cu")
          = str h2 +:+ String "-" (str k2 +:+ ".cu")) in E.
  apply dash_split in E as [E1 E2]; [|intros c; by apply str_digits..].
  split; [by apply str_inj|]. by apply sapp_cancel_r, str_inj in E2.
Qed.

Lemma moe_recognized_last (h : Z) : last_char (Moe.recognized h) = Some "u"%char.
Proof.
  unfold Moe.recognized.
  rewrite last_char_app by (by apply sapp_nonempty_r).
  by rewrite last_char_app.
Qed.

Lemma tutel_recognized_last (h k : Z) :
  last_char (Tutel.recognized h k) = Some "u"%char.
Proof.
  unfold Tutel.recognized.
  rewrite last_char_app by (by do 3 apply sapp_nonempty_r).
  rewrite last_char_app by (by do 2 apply sapp_nonempty_r).
  rewrite last_char_app by (by apply sapp_nonempty_r).
  by rewrite last_char_app.
Qed.

End PathFacts.

(** X1.  Recognized names tell kernels and peers apart: in src/moe/jit.py
    two handles with the same recognized name are the same handle, and in
    tutel/jit.py two pairs of a handle that is not negative and a key with
    the same recognized name are the same pair. *)
Theorem X1_recognized_names_are_distinct (h1 h2 k1 k2 : Z) :
  0 <= h1 -> 0 <= h2 ->
  (Moe.recognized h1 = Moe.recognized h2 -> h1 = h2)
  /\ (Tutel.recognized h1 k1 = Tutel.recognized h2 k2 -> h1 = h2 /\ k1 = k2).
Proof.
  intros H1 H2. split.
  - apply moe_recognized_inj.
  - by apply tutel_recognized_inj.
Qed.

Lemma X1_recognized_names_are_distinct_witness :
  0 <= 12 /\ 0 <= 1
  /\ (Tutel.recognized 12 3 = Tutel.recognized 1 23 -> 12 = 1 /\ 3 = 23)
  /\ Tutel.recognized 12 3 <> Tutel.recognized 1 23.
Proof.
  assert (0 <= 12) as H1 by lia. assert (0 <= 1) as H2 by lia.
  destruct (X1_recognized_names_are_distinct 12 1 3 23 H1 H2) as [_ Ht].
  split; [exact H1|]. split; [exact H2|]. split; [exact Ht|].
  intros E. apply Ht in E. destruct E as [E _]. discriminate E.
Defined.

(** ** What [create] does to the other files *)

Lemma after_create_files (w : world) (dst text p : string) :
  files (after_create w dst text) !! p
  = if decide (p = dst) then Some text
    else if decide (p = next_temp_loc w) then None
    else files w !! p.
Proof.
  unfold after_create. simpl. case_decide as Hd.
  - subst p. apply lookup_insert_eq.
  - rewrite lookup_insert_ne by done. case_decide as Ht.
    + subst p. apply lookup_delete_eq.
    + by rewrite lookup_delete_ne.
Qed.

Lemma next_temp_loc_last (w : world) :
  PyStr.last_char (next_temp_loc w) = Some "E"%char.
Proof. apply temp_name_last. Qed.

(** X2.  One call of [create] changes the file system at two names only:
    the recognized name holds the new text whatever was there before, the
    temporary name is absent afterwards even if a file of that name existed,
    and every other path is as before. *)
Theorem X2_create_changes_two_names :
  (forall g src w p,
      files (Moe.create g src w).1 !! p
      = if decide (p = Moe.recognized (next_handle w))
        then Some (preamble (Moe.IS_HIP_EXTENSION g) +:+ src)
        else if decide (p = next_temp_loc w) then None
        else files w !! p)
  /\ (forall g src w p,
      files (Tutel.create g src w).1 !! p
      = if decide (p = Tutel.recognized (next_handle w) (Tutel.dist_rank g))
        then Some (preamble (Tutel.IS_HIP_EXTENSION g) +:+ src)
        else if decide (p = next_temp_loc w) then None
        else files w !! p).
Proof.
  split; intros g src w p.
  - rewrite moe_create_eq. apply after_create_files.
  - rewrite tutel_create_eq. apply after_create_files.
Qed.

Section Artifacts.
Context {F : Type} (create : string -> M F) (mk : Z -> F).
Context (dst_of : Z -> string) (text_of : string -> string).
Hypothesis create_eq : forall src w,
  create src w
  = (after_create w (dst_of (next_handle w)) (text_of src), inr (mk (next_handle w))).
Hypothesis dst_inj : forall h1 h2, dst_of h1 = dst_of h2 -> h1 = h2.
Hypothesis dst_last : forall h, PyStr.last_char (dst_of h) = Some "u"%char.

Lemma dst_not_temp (h : Z) (w : world) : dst_of h <> next_temp_loc w.
Proof.
  intros E. apply (f_equal PyStr.last_char) in E.
  rewrite dst_last, next_temp_loc_last in E. discriminate.
Qed.

(** After the calls on a list of sources every artifact is in place, and
    a path that is neither one of their recognized names nor a name ending
    in [E] is as before. *)
Lemma for_each_files (sources : list string) (w : world) :
  exists w' fns,
    for_each create sources w = (w', inr fns)
    /\ (forall k src, sources !! k = Some src ->
          files w' !! dst_of (next_handle w + Z.of_nat k) = Some (text_of src))
    /\ (forall p, PyStr.last_char p <> Some "E"%char ->
          (forall k, (k < length sources)%nat -> p <> dst_of (next_handle w + Z.of_nat k)) ->
          files w' !! p = files w !! p).
Proof.
  revert w. induction sources as [|src0 rest IH]; intros w.
  - exists w, []. split; [done|]. split; [|done]. intros k src Hk. done.
  - set (w1 := after_create w (dst_of (next_handle w)) (text_of src0)).
    destruct (IH w1) as (w' & fns & Hrun & Hart & Hframe).
    assert (next_handle w1 = next_handle w + 1) as Hn by done.
    exists w', (mk (next_handle w) :: fns). split; [|split].
    + simpl for_each. unfold mbind, M_bind at 1. rewrite create_eq. fold w1.
      unfold mbind, M_bind at 1. by rewrite Hrun.
    + intros [|k] src Hk.
      * simpl in Hk. injection Hk as ->. rewrite Z.add_0_r.
        rewrite Hframe.
        -- apply after_create_lookup.
        -- rewrite dst_last. discriminate.
        -- intros k _ E. apply dst_inj in E. lia.
      * simpl in Hk. rewrite <- (Hart k src Hk). f_equal. f_equal. lia.
    + intros p Hlast Hp. rewrite Hframe; [|done|].
      * unfold w1. rewrite after_create_files.
        rewrite decide_False.
        -- rewrite decide_False; [done|]. intros ->.
           by rewrite next_temp_loc_last in Hlast.
        -- specialize (Hp 0%nat). rewrite Z.add_0_r in Hp. apply Hp. simpl. lia.
      * intros k Hk. rewrite Hn.
        replace (next_handle w + 1 + Z.of_nat k) with (next_handle w + Z.of_nat (S k)) by lia.
        apply Hp. simpl. lia.
Qed.
End Artifacts.

(** X3.  After the calls of [create] on a list of sources, made one after
    another from any process state, the artifact of every one of them is in
    place under its recognized name with its own text: later calls neither
    overwrite nor remove the artifacts of earlier ones. *)
Theorem X3_artifacts_of_a_session_stay :
  (forall g sources w, exists w' fns,
      for_each (Moe.create g) sources w = (w', inr fns)
      /\ forall k src, sources !! k = Some src ->
           files w' !! Moe.recognized (next_handle w + Z.of_nat k)
           = Some (preamble (Moe.IS_HIP_EXTENSION g) +:+ src))
  /\ (forall g sources w, exists w' fns,
      for_each (Tutel.create g) sources w = (w', inr fns)
      /\ forall k src, sources !! k = Some src ->
           files w' !! Tutel.recognized (next_handle w + Z.of_nat k) (Tutel.dist_rank g)
           = Some (preamble (Tutel.IS_HIP_EXTENSION g) +:+ src)).
Proof.
  split; intros g sources w.
  - destruct (for_each_files (Moe.create g) Moe.Func Moe.recognized
                (fun src => preamble (Moe.IS_HIP_EXTENSION g) +:+ src)
                (moe_create_eq g) moe_recognized_inj moe_recognized_last sources w)
      as (w' & fns & Hrun & Hart & _).
    by exists w', fns.
  - destruct (for_each_files (Tutel.create g)
                (fun c => Tutel.Func c (Tutel.dist_rank g))
                (fun c => Tutel.recognized c (Tutel.dist_rank g))
                (fun src => preamble (Tutel.IS_HIP_EXTENSION g) +:+ src)
                (tutel_create_eq g)
                (fun h1 h2 => tutel_recognized_inj_handle h1 h2 _)
                (fun h => tutel_recognized_last h _) sources w)
      as (w' & fns & Hrun & Hart & _).
    by exists w', fns.
Qed.

(** X4.  A process of the distributed front-end whose counter is not
    negative never touches the recognized name of a peer: whatever sources
    it creates kernels for, every path [/tmp/<h>-<k>.cu] with a key [k]
    other than its own [dist_rank] holds after the calls what it held
    before. *)
Theorem X4_peer_artifacts_untouched
    (g : Tutel.globals) (sources : list string) (w : world) (h k : Z) :
  0 <= next_handle w -> 0 <= h -> k <> Tutel.dist_rank g ->
  exists w' fns,
    for_each (Tutel.create g) sources w = (w', inr fns)
    /\ files w' !! Tutel.recognized h k = files w !! Tutel.recognized h k.
Proof.
  intros Hw Hh Hk.
  destruct (for_each_files (Tutel.create g)
              (fun c => Tutel.Func c (Tutel.dist_rank g))
              (fun c => Tutel.recognized c (Tutel.dist_rank g))
              (fun src => preamble (Tutel.IS_HIP_EXTENSION g) +:+ src)
              (tutel_create_eq g)
              (fun h1 h2 => tutel_recognized_inj_handle h1 h2 _)
              (fun h => tutel_recognized_last h _) sources w)
    as (w' & fns & Hrun & _ & Hframe).
  exists w', fns. split; [done|]. apply Hframe.
  - rewrite tutel_recognized_last. discriminate.
  - intros j _ E. apply tutel_recognized_inj in E as [_ E]; [done|done|lia].
Qed.

Lemma X4_peer_artifacts_untouched_witness :
  0 <= next_handle fresh_process /\ 0 <= 0 /\ 1 <> Tutel.dist_rank (Tutel.Globals false 0)
  /\ exists w' fns,
       for_each (Tutel.create (Tutel.Globals false 0)) ["k0"; "k1"] fresh_process
       = (w', inr fns)
       /\ files w' !! Tutel.recognized 0 1 = files fresh_process !! Tutel.recognized 0 1.
Proof.
  assert (0 <= next_handle fresh_process) as H1 by (by vm_compute).
  assert (0 <= 0) as H2 by lia.
  assert (1 <> Tutel.dist_rank (Tutel.Globals false 0)) as H3 by discriminate.
  split; [exact H1|]. split; [exact H2|]. split; [exact H3|].
  exact (X4_peer_artifacts_untouched (Tutel.Globals false 0) ["k0"; "k1"]
           fresh_process 0 1 H1 H2 H3).
Defined.

(** ** More on specialization *)

Section SpecializeMore.
Import PyStr SparseFp16.

Lemma occurs_has_at (s : string) : occurs placeholder s -> "@"%char ∈ chars s.
Proof.
  intros (a & b & ->). rewrite !chars_app. simpl.
  apply elem_of_app. right. by left.
Qed.

Lemma no_at_before_token (p : string) :
  "@"%char ∉ chars p -> ~ occurs placeholder (p +:+ "@capacity").
Proof.
  induction p as [|x p IH]; intros Hp.
  - apply contains_false. by vm_compute.
  - rewrite sapp_cons. intros [H|H]%occurs_cons.
    + simpl in H. case_decide as E; [|done]. subst x. apply Hp. simpl. by left.
    + revert H. apply IH. intros H. apply Hp. simpl. by right.
Qed.

Lemma specialize_join (pieces : list string) (capacity : Z) :
  (forall p, p ∈ pieces -> "@"%char ∉ chars p) ->
  specialize (join placeholder pieces) capacity = join (str capacity) pieces.
Proof.
  induction pieces as [|p rest IH]; intros Hp.
  - by vm_compute.
  - destruct rest as [|q rest].
    + simpl. apply specialize_absent. intros H%occurs_has_at.
      revert H. apply Hp. by left.
    + change (join placeholder (p :: q :: rest))
        with (p +:+ placeholder +:+ join placeholder (q :: rest)).
      change (join (str capacity) (p :: q :: rest))
        with (p +:+ str capacity +:+ join (str capacity) (q :: rest)).
      rewrite specialize_first.
      * rewrite IH; [done|]. intros p' Hp'. apply Hp. by right.
      * apply no_at_before_token, Hp. by left.
Qed.

End SpecializeMore.

(** X5.  A specialized text cannot be specialized again: the token is
    gone, so a second substitution, with whatever capacity, gives the same
    text back. *)
Theorem X5_specialize_twice (template : string) (capacity capacity' : Z) :
  SparseFp16.specialize (SparseFp16.specialize template capacity) capacity'
  = SparseFp16.specialize template capacity.
Proof. apply specialize_absent, specialize_no_placeholder. Qed.

(** X6.  A template made of pieces without the character [@], put together
    with the token between them, is specialized to the same pieces with the
    decimal string of the capacity between them: every one of the
    occurrences is replaced and nothing else changes. *)
Theorem X6_specialize_every_occurrence (pieces : list string) (capacity : Z) :
  (forall p, p ∈ pieces -> "@"%char ∉ PyStr.chars p) ->
  SparseFp16.specialize (join "@capacity@" pieces) capacity
  = join (PyStr.str capacity) pieces.
Proof. apply specialize_join. Qed.

Lemma X6_specialize_every_occurrence_witness :
  (forall p, p ∈ ["if (x < "; ") y = x * "; ";"] -> "@"%char ∉ PyStr.chars p)
  /\ SparseFp16.specialize "if (x < @capacity@) y = x * @capacity@;" 64
     = "if (x < 64) y = x * 64;".
Proof.
  assert (forall p, p ∈ ["if (x < "; ") y = x * "; ";"] -> "@"%char ∉ PyStr.chars p) as H.
  { apply Forall_forall. by apply (bool_decide_unpack _). }
  split; [exact H|].
  exact (X6_specialize_every_occurrence ["if (x < "; ") y = x * "; ";"] 64 H).
Defined.

(** ** When the import of a front-end module goes through *)

(** X7.  The import of a front-end module never changes the process
    state.  It goes through exactly when the native extension module can be
    imported (and, for tutel/jit.py, CUDA is available): a failing import of
    [IS_HIP_EXTENSION] or a failing [dist.get_rank()] never makes it fail.
    When these two do answer, the module keeps their answers as its flag
    and its [dist_rank]. *)
Theorem X7_import_outcome (h : host) (w : world) :
  (Moe.import_jit h w).1 = w
  /\ (Tutel.import_jit h w).1 = w
  /\ ((exists g, (Moe.import_jit h w).2 = inr g)
      <-> installed h "custom_kernel" = true)
  /\ ((exists g, (Tutel.import_jit h w).2 = inr g)
      <-> cuda_is_available h = true /\ installed h "tutel_custom_kernel" = true)
  /\ (forall b g, cpp_extension_IS_HIP_EXTENSION h = inr b ->
        ((Moe.import_jit h w).2 = inr g -> Moe.IS_HIP_EXTENSION g = b))
  /\ (forall b g, cpp_extension_IS_HIP_EXTENSION h = inr b ->
        ((Tutel.import_jit h w).2 = inr g -> Tutel.IS_HIP_EXTENSION g = b))
  /\ (forall r g, dist_get_rank h = inr r ->
        ((Tutel.import_jit h w).2 = inr g -> Tutel.dist_rank g = r)).
Proof.
  rewrite moe_import_eq, tutel_import_eq. split_and!.
  - by destruct (installed h "custom_kernel").
  - by destruct (cuda_is_available h), (installed h "tutel_custom_kernel").
  - destruct (installed h "custom_kernel"); simpl.
    + split; [done|]. intros _. eauto.
    + split; [|done]. by intros [g Hg].
  - destruct (cuda_is_available h), (installed h "tutel_custom_kernel"); simpl.
    + split; [done|]. intros _. eauto.
    + split; [|by intros [_ ?]]. by intros [g Hg].
    + split; [|by intros [? _]]. by intros [g Hg].
    + split; [|by intros [? _]]. by intros [g Hg].
  - intros b g ->. destruct (installed h "custom_kernel"); simpl; [|done].
    by intros [= <-].
  - intros b g ->.
    destruct (cuda_is_available h), (installed h "tutel_custom_kernel"); simpl;
      try done.
    by intros [= <-].
  - intros r g ->.
    destruct (cuda_is_available h), (installed h "tutel_custom_kernel"); simpl;
      try done.
    by intros [= <-].
Qed.

(** ** The templates of sparse_fp16.py and the loading of the module *)

Section ModuleFacts.
Import PyStr SparseFp16.

Lemma template_shape (T tail : string) :
  T = define_line +:+ placeholder +:+ tail ->
  contains placeholder tail = false ->
  forall capacity, specialize T capacity = define_line +:+ str capacity +:+ tail.
Proof.
  intros -> Htail capacity. rewrite specialize_first.
  - rewrite specialize_absent; [done|]. by apply contains_false.
  - apply contains_false. by vm_compute.
Qed.



End ModuleFacts.

Lemma all_templates_shape :
  Forall (fun T => exists tail,
            T = define_line +:+ "@capacity@" +:+ tail
            /\ ~ PyStr.occurs "@capacity@" tail
            /\ forall capacity,
                 SparseFp16.specialize T capacity
                 = define_line +:+ PyStr.str capacity +:+ tail)
         all_templates.
Proof.
  unfold all_templates.
  repeat first
    [ apply Forall_nil_2
    | apply Forall_cons_2;
      [ match goal with
        | |- exists tail, ?T = _ /\ _ =>
            exists (String.substring 29 (String.length T) T);
            assert (T = define_line +:+ SparseFp16.placeholder
                        +:+ String.substring 29 (String.length T) T) as E
              by (by vm_compute);
            assert (PyStr.contains SparseFp16.placeholder
                      (String.substring 29 (String.length T) T) = false) as Hc
              by (by vm_compute);
            split; [exact E|]; split; [by apply contains_false|];
            by apply template_shape
        end
      | ] ].
Qed.

(** X8.  Every one of the five templates of sparse_fp16.py starts with the
    line [#define capacity (@capacity@)] and carries the token nowhere
    else; so for every capacity the specialized text is the template with
    the decimal string of the capacity in that line and is the same
    elsewhere. *)
Theorem X8_templates_carry_the_token_once :
  Forall (fun T => exists tail,
            T = define_line +:+ "@capacity@" +:+ tail
            /\ ~ PyStr.occurs "@capacity@" tail
            /\ forall capacity,
                 SparseFp16.specialize T capacity
                 = define_line +:+ PyStr.str capacity +:+ tail)
         all_templates.
Proof. exact all_templates_shape. Qed.

(** X12.  For every template of sparse_fp16.py, two capacities with the
    same specialized text are the same capacity: kernels specialized for
    different capacities never have the same source. *)
Theorem X12_specialized_text_tells_capacity :
  Forall (fun T => forall capacity capacity',
            SparseFp16.specialize T capacity = SparseFp16.specialize T capacity' ->
            capacity = capacity')
         all_templates.
Proof.
  eapply Forall_impl; [exact all_templates_shape|].
  intros T (tail & _ & _ & Hshape) capacity capacity' E.
  rewrite !Hshape in E.
  apply (inj (String.app define_line)) in E.
  by apply sapp_cancel_r, str_inj in E.
Qed.



(** ** The forward wrapper of the HIP section *)

(** X10.  [func_fwd] of the HIP section, called without arguments, raises
    [IndexError] and neither reaches the back end nor writes a tensor.
    Called with arguments, it calls the back end once, with the handle of
    [func_fwd_stage] and as many buffers as it was given: the buffers but
    the last are the caller's, in order, the last is the new zero-filled
    float32 tensor, and the caller's last tensor is written afterwards, once,
    by the copy from that new tensor. *)
Theorem X10_func_fwd_hip_scratch_output
    {T : Type} (zeros_float32_like : T -> T) (to_dtype_of : T -> T -> T)
    (stage : Moe.func) (inputs : list T) :
  match last inputs with
  | None =>
      inputs = []
      /\ func_fwd_hip zeros_float32_like to_dtype_of stage inputs
         = inl (IndexError "list index out of range")
  | Some output =>
      exists args,
        func_fwd_hip zeros_float32_like to_dtype_of stage inputs
        = inr [Launch (Moe.Invoke args (Moe.captured_ctx stage));
               Copy_ output (to_dtype_of (zeros_float32_like output) output)]
        /\ length args = length inputs
        /\ last args = Some (zeros_float32_like output)
        /\ forall i, (S i < length inputs)%nat -> args !! i = inputs !! i
  end.
Proof.
  unfold func_fwd_hip. destruct (last inputs) as [output|] eqn:Hlast.
  - eexists. split; [reflexivity|].
    assert (pred (length inputs) < length inputs)%nat as Hlt.
    { destruct inputs; [done|]. simpl. lia. }
    split_and!.
    + apply length_insert.
    + rewrite last_lookup, length_insert. by apply list_lookup_insert_eq.
    + intros i Hi. apply list_lookup_insert_ne. lia.
  - split; [|done]. by apply last_None.
Qed.

(** ** Overlapping calls: what every schedule keeps *)

Ltac step_at :=
  unfold thread_at, rest_at, locals_at, fe_after_incr, fe_staging, fe_key, fe_hip,
    fe_spawn, fe_recognized, Moe.spawn, Tutel.spawn, Moe.create_body,
    Tutel.create_body, allocate_handle, write_temp, step, hasattr_CTX in *;
  simpl t_cont; simpl t_frame; simpl in *; run_M; subst;
  rewrite ?lookup_insert_eq; try reflexivity.

Section StepAt.
Variables (names : nat -> string) (src : string).

Lemma step_at_test (fe : front_end) (w : world) :
  step (thread_at fe names (src, at_test)) w
  = (w, inr (thread_at fe names (src, if hasattr_CTX w then at_load else at_init))).
Proof. destruct fe, w as [[c0|] ci fs nm mc]; step_at. Qed.

Lemma step_at_init (fe : front_end) (w : world) :
  step (thread_at fe names (src, at_init)) w
  = ((torch_cuda_init w).1, inr (thread_at fe names (src, at_store))).
Proof. destruct fe, w as [ctx ci fs nm mc]; step_at. Qed.

Lemma step_at_store (fe : front_end) (w : world) :
  step (thread_at fe names (src, at_store)) w
  = ((set_CTX 0 w).1, inr (thread_at fe names (src, at_load))).
Proof. destruct fe, w as [ctx ci fs nm mc]; step_at. Qed.

Lemma step_at_load (fe : front_end) (w : world) (c : Z) :
  JitKernel_CTX w = Some c ->
  step (thread_at fe names (src, at_load)) w
  = (w, inr (thread_at fe names (src, at_incr c))).
Proof. destruct fe, w as [ctx ci fs nm mc]; intros H; step_at. Qed.

Lemma step_at_incr (fe : front_end) (w : world) (c c' : Z) :
  JitKernel_CTX w = Some c' ->
  step (thread_at fe names (src, at_incr c)) w
  = ((set_CTX (c' + 1) w).1,
     inr (thread_at fe names (src, match fe with
                                   | FE_moe _ => at_mktemp c
                                   | FE_tutel _ => at_key c
                                   end))).
Proof. destruct fe, w as [ctx ci fs nm mc]; intros H; step_at. Qed.

Lemma step_at_key (fe : front_end) (w : world) (c : Z) :
  tempfile_names w = names ->
  step (thread_at fe names (src, at_key c)) w
  = match fe with
    | FE_moe _ =>
        ((tempfile_mktemp w).1,
         inr (thread_at fe names (src, at_open c (mktemp_calls w))))
    | FE_tutel _ => (w, inr (thread_at fe names (src, at_mktemp c)))
    end.
Proof. destruct fe, w as [ctx ci fs nm mc]; intros H; step_at. Qed.

Lemma step_at_mktemp (fe : front_end) (w : world) (c : Z) :
  tempfile_names w = names ->
  step (thread_at fe names (src, at_mktemp c)) w
  = ((tempfile_mktemp w).1, inr (thread_at fe names (src, at_open c (mktemp_calls w)))).
Proof. destruct fe, w as [ctx ci fs nm mc]; intros H; step_at. Qed.

Lemma step_at_open (fe : front_end) (w : world) (c : Z) (n : nat) :
  step (thread_at fe names (src, at_open c n)) w
  = ((os_open_w (temp_name (names n) c) w).1,
     inr (thread_at fe names (src, at_write_preamble c n))).
Proof. destruct fe, w as [ctx ci fs nm mc]; step_at. Qed.

Lemma step_at_write_preamble (fe : front_end) (w : world) (c : Z) (n : nat) (x : string) :
  files w !! temp_name (names n) c = Some x ->
  step (thread_at fe names (src, at_write_preamble c n)) w
  = ((set_files (<[temp_name (names n) c := x +:+ preamble (fe_hip fe)]> (files w)) w).1,
     inr (thread_at fe names (src, at_write_source c n))).
Proof. destruct fe, w as [ctx ci fs nm mc]; intros H; step_at; by rewrite H. Qed.

Lemma step_at_write_source (fe : front_end) (w : world) (c : Z) (n : nat) (x : string) :
  files w !! temp_name (names n) c = Some x ->
  step (thread_at fe names (src, at_write_source c n)) w
  = ((set_files (<[temp_name (names n) c := x +:+ src]> (files w)) w).1,
     inr (thread_at fe names (src, at_close c n))).
Proof. destruct fe, w as [ctx ci fs nm mc]; intros H; step_at; by rewrite H. Qed.

Lemma step_at_close (fe : front_end) (w : world) (c : Z) (n : nat) :
  step (thread_at fe names (src, at_close c n)) w
  = (w, inr (thread_at fe names (src, at_rename c n))).
Proof. destruct fe, w as [ctx ci fs nm mc]; step_at. Qed.

Lemma step_at_rename (fe : front_end) (w : world) (c : Z) (n : nat) (x : string) :
  files w !! temp_name (names n) c = Some x ->
  step (thread_at fe names (src, at_rename c n)) w
  = ((set_files (<[fe_recognized fe c := x]> (delete (temp_name (names n) c) (files w))) w).1,
     inr (thread_at fe names (src, at_end c n))).
Proof. destruct fe, w as [ctx ci fs nm mc]; intros H; step_at; by rewrite H. Qed.

Lemma step_at_end (fe : front_end) (w : world) (c : Z) (n : nat) :
  step (thread_at fe names (src, at_end c n)) w
  = (w, inr (thread_at fe names (src, at_end c n))).
Proof. destruct fe, w as [ctx ci fs nm mc]; step_at. Qed.

End StepAt.

Section Interleaving.
Variables (fe : front_end) (w0 : world) (sources : list string).
Hypothesis names_distinct : forall n m c d, n <> m ->
  temp_name (tempfile_names w0 n) c <> temp_name (tempfile_names w0 m) d.

Local Abbreviation names := (tempfile_names w0).
Local Abbreviation conc := (thread_at fe (tempfile_names w0)).

Lemma temp_not_fe_recognized (n : nat) (c h : Z) :
  temp_name (names n) c <> fe_recognized fe h.
Proof.
  destruct fe; [apply temp_name_not_recognized_moe|apply temp_name_not_recognized_tutel].
Qed.

Lemma written_at_other (fs fs' : gmap string string) (sq : string * place) :
  (forall n c, draw_of sq.2 = Some n ->
     fs' !! temp_name (names n) c = fs !! temp_name (names n) c) ->
  written_at fe names fs sq -> written_at fe names fs' sq.
Proof.
  destruct sq as [src q]. unfold written_at. simpl. intros H.
  destruct q; try done; by rewrite H.
Qed.

Lemma consistent_start :
  consistent fe w0 sources w0 ((fun src => (src, at_test)) <$> sources).
Proof.
  split.
  - rewrite <- list_fmap_compose. apply list_fmap_id.
  - done.
  - intros sp (src & -> & _)%list_elem_of_fmap. done.
  - intros sp n (src & -> & _)%list_elem_of_fmap. done.
  - intros i j sp sq n _ Hi _. rewrite list_lookup_fmap in Hi.
    destruct (sources !! i); by simplify_eq/=.
  - intros sp (src & -> & _)%list_elem_of_fmap. done.
  - intros h. by left.
Qed.

Lemma spawn_start :
  conc <$> ((fun src => (src, at_test)) <$> sources) = fe_spawn fe <$> sources.
Proof.
  rewrite <- list_fmap_compose. apply list_fmap_ext. intros _ src _.
  by destruct fe.
Qed.

(** One step of the call at position [i] that moves it from [p] to [p']. *)
Lemma consistent_update (w w' : world) (calls : list (string * place))
    (i : nat) (src : string) (p p' : place) :
  consistent fe w0 sources w calls ->
  calls !! i = Some (src, p) ->
  tempfile_names w' = tempfile_names w ->
  (is_Some (JitKernel_CTX w) -> is_Some (JitKernel_CTX w')) ->
  (reads_CTX p' = true -> is_Some (JitKernel_CTX w')) ->
  (mktemp_calls w <= mktemp_calls w')%nat ->
  (forall n, draw_of p' = Some n ->
     draw_of p = Some n
     \/ (n = mktemp_calls w /\ (mktemp_calls w < mktemp_calls w')%nat)) ->
  (forall path,
     files w' !! path = files w !! path
     \/ (exists n c, draw_of p = Some n /\ path = temp_name (names n) c)
     \/ (exists h, path = fe_recognized fe h)) ->
  written_at fe names (files w') (src, p') ->
  (forall h,
     files w' !! fe_recognized fe h = files w !! fe_recognized fe h
     \/ files w' !! fe_recognized fe h = Some (fe_text fe src)) ->
  consistent fe w0 sources w' (<[i := (src, p')]> calls).
Proof.
  intros [Hsrc Hnames Hctx Hdrawn Hdraws Hwr Hrec] Hi Hn' Hmono Hreads Hmc Hdraw Hfiles
    Hmine Hrec'.
  assert (i < length calls)%nat as Hlen by (by eapply lookup_lt_Some).
  assert (forall sq, sq ∈ <[i := (src, p')]> calls ->
            sq = (src, p') \/ exists j, j <> i /\ calls !! j = Some sq) as Hmem.
  { intros sq (j & Hj)%list_elem_of_lookup_1.
    destruct (decide (j = i)) as [->|Hne].
    - rewrite list_lookup_insert_eq in Hj by done. left. congruence.
    - rewrite list_lookup_insert_ne in Hj by done. right. eauto. }
  split.
  - rewrite list_fmap_insert. simpl. rewrite <- Hsrc.
    apply list_insert_id. rewrite list_lookup_fmap, Hi. done.
  - congruence.
  - intros sq [->|(j & Hj & Hsq)]%Hmem Hr; [by apply Hreads|].
    apply Hmono, (Hctx sq); [|done]. by eapply list_elem_of_lookup_2.
  - intros sq n [->|(j & Hj & Hsq)]%Hmem Hd.
    + simpl in Hd. destruct (Hdraw n Hd) as [Hp|[-> ?]]; [|done].
      eapply Nat.lt_le_trans; [|exact Hmc].
      apply (Hdrawn (src, p) n); [by eapply list_elem_of_lookup_2|done].
    + eapply Nat.lt_le_trans; [|exact Hmc].
      apply (Hdrawn sq n); [by eapply list_elem_of_lookup_2|done].
  - intros j k sp sq n Hjk Hj Hk Hd Hd'.
    destruct (decide (j = i)) as [->|Hji]; destruct (decide (k = i)) as [->|Hki];
      try done.
    + rewrite list_lookup_insert_eq in Hj by done.
      rewrite list_lookup_insert_ne in Hk by done. simplify_eq/=.
      destruct (Hdraw n Hd) as [Hp|[-> ?]].
      * by apply (Hdraws i k (src, p) sq n).
      * assert (mktemp_calls w < mktemp_calls w)%nat; [|lia].
        apply (Hdrawn sq (mktemp_calls w)); [by eapply list_elem_of_lookup_2|done].
    + rewrite list_lookup_insert_ne in Hj by done.
      rewrite list_lookup_insert_eq in Hk by done. simplify_eq/=.
      destruct (Hdraw n Hd') as [Hp|[-> ?]].
      * by apply (Hdraws j i sp (src, p) n).
      * assert (mktemp_calls w < mktemp_calls w)%nat; [|lia].
        apply (Hdrawn sp (mktemp_calls w)); [by eapply list_elem_of_lookup_2|done].
    + rewrite list_lookup_insert_ne in Hj by done.
      rewrite list_lookup_insert_ne in Hk by done.
      by apply (Hdraws j k sp sq n).
  - intros sq [->|(j & Hj & Hsq)]%Hmem; [done|].
    apply (written_at_other (files w)); [|apply Hwr; by eapply list_elem_of_lookup_2].
    intros n c Hd.
    destruct (Hfiles (temp_name (names n) c)) as [E|[(m & d & Hm & E)|(h & E)]].
    + done.
    + exfalso. destruct (decide (n = m)) as [->|Hnm].
      * by apply (Hdraws j i sq (src, p) m).
      * by apply (names_distinct n m c d).
    + exfalso. by apply (temp_not_fe_recognized n c h).
  - intros h. destruct (Hrec' h) as [E|E].
    + rewrite E. apply Hrec.
    + right. exists src. split; [|done].
      rewrite <- Hsrc. apply list_elem_of_fmap. exists (src, p).
      split; [done|]. by eapply list_elem_of_lookup_2.
Qed.

Lemma advance (w w' : world) (calls : list (string * place)) (i : nat)
    (src : string) (p p' : place) :
  calls !! i = Some (src, p) ->
  step (conc (src, p)) w = (w', inr (conc (src, p'))) ->
  sched_step (conc <$> calls) i w
  = (w', inr (conc <$> <[i := (src, p')]> calls)).
Proof.
  intros Hi Hstep. unfold sched_step. rewrite list_lookup_fmap, Hi. simpl.
  unfold mbind, M_bind. rewrite Hstep. unfold mret, M_ret.
  by rewrite list_fmap_insert.
Qed.

End Interleaving.

Section RangeFacts.

Local Abbreviation b2n := (fun b : bool => if b then 1%nat else 0%nat).

Lemma incremented_cons (sq : string * place) (calls : list (string * place)) :
  incremented (sq :: calls) = (b2n (past_incr sq.2) + incremented calls)%nat.
Proof. reflexivity. Qed.

Lemma incremented_insert (calls : list (string * place)) (i : nat)
    (src : string) (p p' : place) :
  calls !! i = Some (src, p) ->
  (incremented (<[i := (src, p')]> calls) + b2n (past_incr p)
   = incremented calls + b2n (past_incr p'))%nat.
Proof.
  revert i. induction calls as [|sq calls IH]; intros i Hi; [done|].
  destruct i as [|i]; simpl in Hi.
  - injection Hi as ->. simpl. rewrite !incremented_cons. simpl.
    destruct (past_incr p), (past_incr p'); lia.
  - specialize (IH i Hi). simpl. rewrite !incremented_cons. lia.
Qed.

Lemma incremented_le (calls : list (string * place)) :
  (incremented calls <= length calls)%nat.
Proof.
  induction calls as [|sq calls IH]; [done|].
  rewrite incremented_cons. simpl. destruct (past_incr sq.2); lia.
Qed.

Lemma incremented_lt (calls : list (string * place)) (sp : string * place) :
  sp ∈ calls -> past_incr sp.2 = false ->
  (incremented calls < length calls)%nat.
Proof.
  induction calls as [|sq calls IH]; intros Hin Hp; [by apply elem_of_nil in Hin|].
  rewrite incremented_cons. simpl.
  apply elem_of_cons in Hin as [->|Hin].
  - pose proof (incremented_le calls). rewrite Hp. lia.
  - specialize (IH Hin Hp). destruct (past_incr sq.2); lia.
Qed.

Lemma in_range_update (w w' : world) (calls : list (string * place))
    (i : nat) (src : string) (p p' : place) :
  in_range w calls ->
  calls !! i = Some (src, p) ->
  (past_incr p = true -> past_incr p' = true) ->
  (forall v', JitKernel_CTX w' = Some v' ->
     v' = 0 \/ JitKernel_CTX w = Some v'
     \/ exists v, JitKernel_CTX w = Some v /\ v' = v + 1
                  /\ past_incr p = false /\ past_incr p' = true) ->
  (forall c, handle_at p' = Some c ->
     handle_at p = Some c \/ (JitKernel_CTX w = Some c /\ past_incr p' = false)) ->
  in_range w' (<[i := (src, p')]> calls).
Proof.
  intros [Hcnt Hh] Hi Hpast Hctx Hmine.
  pose proof (incremented_insert calls i src p p' Hi) as Hk.
  assert (i < length calls)%nat as Hlen by (by eapply lookup_lt_Some).
  assert ((src, p) ∈ calls) as Hin by (by eapply list_elem_of_lookup_2).
  assert (incremented calls <= incremented (<[i := (src, p')]> calls))%nat as Hle.
  { destruct (past_incr p); [rewrite Hpast in Hk by done|];
      destruct (past_incr p'); lia. }
  split.
  - intros v' Hv'. destruct (Hctx v' Hv') as [->|[Hv|(v & Hv & -> & Hp & Hp')]].
    + lia.
    + specialize (Hcnt v' Hv). lia.
    + specialize (Hcnt v Hv). rewrite Hp, Hp' in Hk. lia.
  - intros sq c (j & Hj)%list_elem_of_lookup_1 Hc.
    destruct (decide (j = i)) as [->|Hne].
    + rewrite list_lookup_insert_eq in Hj by done. injection Hj as <-.
      simpl in *. destruct (Hmine c Hc) as [Hp|[Hv Hp']].
      * destruct (Hh (src, p) c Hin Hp) as [H0 Hb]. simpl in Hb. split; [done|].
        destruct (past_incr p); [rewrite Hpast in * by done; lia|].
        destruct (past_incr p'); lia.
      * specialize (Hcnt c Hv). rewrite Hp'. lia.
    + rewrite list_lookup_insert_ne in Hj by done.
      destruct (Hh sq c) as [H0 Hb]; [by eapply list_elem_of_lookup_2|done|].
      split; [done|]. lia.
Qed.

Lemma in_range_start (w0 : world) (sources : list string) :
  JitKernel_CTX w0 = None ->
  in_range w0 ((fun src => (src, at_test)) <$> sources).
Proof.
  intros H0. split.
  - intros v Hv. congruence.
  - intros sp c (src & -> & _)%list_elem_of_fmap. done.
Qed.

Lemma handle_of_thread_at (fe : front_end) (names : nat -> string)
    (sp : string * place) :
  l_ctx (t_frame (thread_at fe names sp)) = handle_at sp.2.
Proof. destruct sp as [src p]. by destruct p. Qed.

End RangeFacts.

Lemma step_consistent (fe : front_end) (w0 : world) (sources : list string)
    (w : world) (calls : list (string * place)) (i : nat) :
  (forall n m c d, n <> m ->
     temp_name (tempfile_names w0 n) c <> temp_name (tempfile_names w0 m) d) ->
  consistent fe w0 sources w calls ->
  exists w' calls',
    sched_step (thread_at fe (tempfile_names w0) <$> calls) i w
    = (w', inr (thread_at fe (tempfile_names w0) <$> calls'))
    /\ consistent fe w0 sources w' calls'
    /\ (in_range w calls -> in_range w' calls').
Proof.
  intros Hdist Hc. destruct (calls !! i) as [[src p]|] eqn:Hi.
  2:{ exists w, calls. split; [|done]. unfold sched_step.
      by rewrite list_lookup_fmap, Hi. }
  assert ((src, p) ∈ calls) as Hin by (by eapply list_elem_of_lookup_2).
  pose proof (c_names _ _ _ _ _ Hc) as Hnames.
  pose proof (c_counter _ _ _ _ _ Hc _ Hin) as Hctx.
  pose proof (c_written _ _ _ _ _ Hc _ Hin) as Hwr.
  unfold written_at in Hwr. simpl in Hctx, Hwr.
  destruct p.
  - (* the test of the [if] *)
    eexists _, _. split; [eapply advance; [exact Hi|apply step_at_test]|]. split.
    { apply (consistent_update fe w0 sources Hdist w w calls i src at_test); try done.
      + intros Hr. destruct (hasattr_CTX w) eqn:E; [|done].
        unfold hasattr_CTX in E. by destruct (JitKernel_CTX w).
      + intros n Hn. by destruct (hasattr_CTX w).
      + intros path. by left.
      + unfold written_at. simpl. by destruct (hasattr_CTX w).
      + intros h. by left. }
    intros Hr. eapply (in_range_update w w calls i src at_test); try done.
    + intros v' Hv'. by right; left.
    + intros c. by destruct (hasattr_CTX w).
  - (* [torch.cuda.init()] *)
    eexists _, _. split; [eapply advance; [exact Hi|apply step_at_init]|]. split.
    { eapply (consistent_update fe w0 sources Hdist w _ calls i src at_init); try done.
      + intros path. by left.
      + intros h. by left. }
    intros Hr. eapply (in_range_update w _ calls i src at_init); try done.
    intros v' Hv'. by right; left.
  - (* [JitKernel.__CTX__ = 0] *)
    eexists _, _. split; [eapply advance; [exact Hi|apply step_at_store]|]. split.
    { eapply (consistent_update fe w0 sources Hdist w _ calls i src at_store); try done.
      + intros path. by left.
      + intros h. by left. }
    intros Hr. eapply (in_range_update w _ calls i src at_store); try done.
    intros v' [= <-]. by left.
  - (* [__ctx__ = JitKernel.__CTX__] *)
    destruct Hctx as [c Hc0]; [done|].
    eexists _, _. split; [eapply advance; [exact Hi|by apply step_at_load]|]. split.
    { eapply (consistent_update fe w0 sources Hdist w _ calls i src at_load); try done.
      + intros path. by left.
      + intros h. by left. }
    intros Hr. eapply (in_range_update w w calls i src at_load); try done.
    + intros v' Hv'. by right; left.
    + intros c' [= <-]. by right.
  - (* [JitKernel.__CTX__ += 1] *)
    destruct Hctx as [c' Hc0]; [done|].
    eexists _, _. split; [eapply advance; [exact Hi|by apply step_at_incr]|]. split.
    { eapply (consistent_update fe w0 sources Hdist w _ calls i src (at_incr c));
        try done; try (by destruct fe).
      + intros path. by left.
      + intros h. by left. }
    intros Hr. eapply (in_range_update w _ calls i src (at_incr c)); try done.
    + intros v' [= <-]. right. right. exists c'. by destruct fe.
    + intros c1 Hc1. left. by destruct fe.
  - (* [key = dist_rank] *)
    destruct fe as [g|g].
    + eexists _, _. split.
      { eapply advance; [exact Hi|]. by rewrite step_at_key. }
      split.
      { eapply (consistent_update _ w0 sources Hdist w _ calls i src (at_key c));
          try done.
        * simpl. lia.
        * simpl. intros n [= <-]. right. lia.
        * intros path. by left.
        * intros h. by left. }
      intros Hr. eapply (in_range_update w _ calls i src (at_key c)); try done.
      * intros v' Hv'. by right; left.
      * intros c1 Hc1. by left.
    + eexists _, _. split.
      { eapply advance; [exact Hi|]. by rewrite step_at_key. }
      split.
      { eapply (consistent_update _ w0 sources Hdist w _ calls i src (at_key c));
          try done.
        * intros path. by left.
        * intros h. by left. }
      intros Hr. eapply (in_range_update w w calls i src (at_key c)); try done.
      * intros v' Hv'. by right; left.
      * intros c1 Hc1. by left.
  - (* [temp_loc = ...] *)
    eexists _, _. split; [eapply advance; [exact Hi|by apply step_at_mktemp]|]. split.
    { eapply (consistent_update fe w0 sources Hdist w _ calls i src (at_mktemp c));
        try done.
      + simpl. lia.
      + simpl. intros n [= <-]. right. lia.
      + intros path. by left.
      + intros h. by left. }
    intros Hr. eapply (in_range_update w _ calls i src (at_mktemp c)); try done.
    + intros v' Hv'. by right; left.
    + intros c1 Hc1. by left.
  - (* [open(temp_loc, 'w')] *)
    eexists _, _. split; [eapply advance; [exact Hi|apply step_at_open]|]. split.
    { eapply (consistent_update fe w0 sources Hdist w _ calls i src (at_open c n));
        try done.
      + simpl. intros m [= <-]. by left.
      + intros path. simpl.
        destruct (decide (path = temp_name (tempfile_names w0 n) c)) as [->|Hp].
        * right. left. eauto.
        * left. by rewrite lookup_insert_ne.
      + unfold written_at. simpl. apply lookup_insert_eq.
      + intros h. left. simpl. rewrite lookup_insert_ne; [done|].
        apply temp_not_fe_recognized. }
    intros Hr. eapply (in_range_update w _ calls i src (at_open c n)); try done.
    + intros v' Hv'. by right; left.
    + intros c1 Hc1. by left.
  - (* [fp.write(<preamble>)] *)
    eexists _, _. split; [eapply advance; [exact Hi|by eapply step_at_write_preamble]|].
    split.
    { eapply (consistent_update fe w0 sources Hdist w _ calls i src
                (at_write_preamble c n)); try done.
      + simpl. intros m [= <-]. by left.
      + intros path. simpl.
        destruct (decide (path = temp_name (tempfile_names w0 n) c)) as [->|Hp].
        * right. left. eauto.
        * left. by rewrite lookup_insert_ne.
      + unfold written_at. simpl. apply lookup_insert_eq.
      + intros h. left. simpl. rewrite lookup_insert_ne; [done|].
        apply temp_not_fe_recognized. }
    intros Hr. eapply (in_range_update w _ calls i src (at_write_preamble c n));
      try done.
    + intros v' Hv'. by right; left.
    + intros c1 Hc1. by left.
  - (* [fp.write(source)] *)
    eexists _, _. split; [eapply advance; [exact Hi|by eapply step_at_write_source]|].
    split.
    { eapply (consistent_update fe w0 sources Hdist w _ calls i src
                (at_write_source c n)); try done.
      + simpl. intros m [= <-]. by left.
      + intros path. simpl.
        destruct (decide (path = temp_name (tempfile_names w0 n) c)) as [->|Hp].
        * right. left. eauto.
        * left. by rewrite lookup_insert_ne.
      + unfold written_at. simpl. apply lookup_insert_eq.
      + intros h. left. simpl. rewrite lookup_insert_ne; [done|].
        apply temp_not_fe_recognized. }
    intros Hr. eapply (in_range_update w _ calls i src (at_write_source c n));
      try done.
    + intros v' Hv'. by right; left.
    + intros c1 Hc1. by left.
  - (* the end of the [with] block *)
    eexists _, _. split; [eapply advance; [exact Hi|apply step_at_close]|]. split.
    { eapply (consistent_update fe w0 sources Hdist w _ calls i src (at_close c n));
        try done.
      + simpl. intros m [= <-]. by left.
      + intros path. by left.
      + intros h. by left. }
    intros Hr. eapply (in_range_update w w calls i src (at_close c n)); try done.
    + intros v' Hv'. by right; left.
    + intros c1 Hc1. by left.
  - (* [os.rename(temp_loc, <recognized name>)] *)
    eexists _, _. split; [eapply advance; [exact Hi|by eapply step_at_rename]|]. split.
    { eapply (consistent_update fe w0 sources Hdist w _ calls i src (at_rename c n));
        try done.
      + simpl. intros m [= <-]. by left.
      + intros path. simpl.
        destruct (decide (path = fe_recognized fe c)) as [->|Hr]; [right; right; eauto|].
        destruct (decide (path = temp_name (tempfile_names w0 n) c)) as [->|Hp].
        * right. left. eauto.
        * left. by rewrite lookup_insert_ne, lookup_delete_ne.
      + intros h. simpl.
        destruct (decide (fe_recognized fe h = fe_recognized fe c)) as [->|Hr].
        * right. rewrite lookup_insert_eq. done.
        * left. rewrite lookup_insert_ne by done. rewrite lookup_delete_ne; [done|].
          apply temp_not_fe_recognized. }
    intros Hr. eapply (in_range_update w _ calls i src (at_rename c n)); try done.
    + intros v' Hv'. by right; left.
    + intros c1 Hc1. by left.
  - (* the call has ended *)
    eexists _, _. split; [eapply advance; [exact Hi|apply step_at_end]|]. split.
    { eapply (consistent_update fe w0 sources Hdist w _ calls i src (at_end c n));
        try done.
      + simpl. intros m [= <-]. by left.
      + intros path. by left.
      + intros h. by left. }
    intros Hr. eapply (in_range_update w w calls i src (at_end c n)); try done.
    + intros v' Hv'. by right; left.
    + intros c1 Hc1. by left.
Qed.

Lemma interleave_consistent (fe : front_end) (w0 : world) (sources : list string)
    (schedule : list nat) (w : world) (calls : list (string * place)) :
  (forall n m c d, n <> m ->
     temp_name (tempfile_names w0 n) c <> temp_name (tempfile_names w0 m) d) ->
  consistent fe w0 sources w calls ->
  exists w' calls',
    interleave schedule (thread_at fe (tempfile_names w0) <$> calls) w
    = (w', inr (thread_at fe (tempfile_names w0) <$> calls'))
    /\ consistent fe w0 sources w' calls'
    /\ (in_range w calls -> in_range w' calls').
Proof.
  intros Hdist. revert w calls.
  induction schedule as [|i rest IH]; intros w calls Hc.
  - by exists w, calls.
  - destruct (step_consistent fe w0 sources w calls i Hdist Hc)
      as (w1 & calls1 & Hstep & Hc1 & Hr1).
    destruct (IH w1 calls1 Hc1) as (w' & calls' & Hrun & Hc' & Hr').
    exists w', calls'. split; [|split; [done|auto]].
    simpl. unfold mbind, M_bind. by rewrite Hstep.
Qed.

Lemma pretty_nat_digits (n : nat) (c : ascii) :
  c ∈ PyStr.chars (pretty n) -> digit_char c.
Proof.
  unfold pretty, pretty_nat, pretty, pretty_N. case_decide.
  - unfold digit_char. simpl. set_solver.
  - apply pretty_N_go_digits. simpl. intros ? ?%elem_of_nil. done.
Qed.

(** The names of [fresh_process] stay apart when the handle and the
    suffix are put behind them. *)
Lemma fresh_names_distinct (n m : nat) (c d : Z) :
  n <> m ->
  temp_name (tempfile_names fresh_process n) c
  <> temp_name (tempfile_names fresh_process m) d.
Proof.
  intros Hnm E. unfold temp_name, fresh_process in E. simpl in E.
  rewrite !sapp_assoc in E. apply (inj (String.app "/tmp/tmp")) in E.
  change (pretty n +:+ String "-" (PyStr.str c +:+ ".MoE")
          = pretty m +:+ String "-" (PyStr.str d +:+ ".MoE")) in E.
  apply dash_split in E as [E _].
  - by apply (inj pretty) in E.
  - apply pretty_nat_digits.
  - apply pretty_nat_digits.
Qed.

(** X11.  Calls of [create] that overlap inside one process, whatever
    their number and whatever the order in which their statements are taken,
    neither fail nor leave a recognized file partly written, as long as
    [tempfile.mktemp()] hands out names that stay different once the handle
    and the suffix are put behind them: at every moment every recognized
    name holds what it held at the start or the whole text, preamble and
    source, of one of the calls. *)
Theorem X11_overlapping_calls_never_partial
    (w0 : world) (sources : list string) (schedule : list nat) :
  (forall n m c d, n <> m ->
     temp_name (tempfile_names w0 n) c <> temp_name (tempfile_names w0 m) d) ->
  (forall g, exists w' ts,
      interleave schedule (Moe.spawn g <$> sources) w0 = (w', inr ts)
      /\ forall h,
           files w' !! Moe.recognized h = files w0 !! Moe.recognized h
           \/ exists src, src ∈ sources
                /\ files w' !! Moe.recognized h
                   = Some (preamble (Moe.IS_HIP_EXTENSION g) +:+ src))
  /\ (forall g, exists w' ts,
      interleave schedule (Tutel.spawn g <$> sources) w0 = (w', inr ts)
      /\ forall h,
           files w' !! Tutel.recognized h (Tutel.dist_rank g)
           = files w0 !! Tutel.recognized h (Tutel.dist_rank g)
           \/ exists src, src ∈ sources
                /\ files w' !! Tutel.recognized h (Tutel.dist_rank g)
                   = Some (preamble (Tutel.IS_HIP_EXTENSION g) +:+ src)).
Proof.
  intros Hdist. split; intros g.
  - destruct (interleave_consistent (FE_moe g) w0 sources schedule w0 _ Hdist
                (consistent_start (FE_moe g) w0 sources))
      as (w' & calls' & Hrun & Hc & _).
    rewrite spawn_start in Hrun. eexists _, _. split; [exact Hrun|].
    apply (c_recognized _ _ _ _ _ Hc).
  - destruct (interleave_consistent (FE_tutel g) w0 sources schedule w0 _ Hdist
                (consistent_start (FE_tutel g) w0 sources))
      as (w' & calls' & Hrun & Hc & _).
    rewrite spawn_start in Hrun. eexists _, _. split; [exact Hrun|].
    apply (c_recognized _ _ _ _ _ Hc).
Qed.

Lemma X11_overlapping_calls_never_partial_witness :
  (forall n m c d, n <> m ->
     temp_name (tempfile_names fresh_process n) c
     <> temp_name (tempfile_names fresh_process m) d)
  /\ exists w' ts,
       interleave racing_schedule (Moe.spawn (Moe.Globals false) <$> ["a"; "b"])
         fresh_process = (w', inr ts)
       /\ (files w' !! Moe.recognized 0 = files fresh_process !! Moe.recognized 0
           \/ exists src, src ∈ ["a"; "b"]
                /\ files w' !! Moe.recognized 0 = Some (preamble false +:+ src)).
Proof.
  split; [exact fresh_names_distinct|].
  destruct (X11_overlapping_calls_never_partial fresh_process ["a"; "b"]
              racing_schedule fresh_names_distinct) as [Hm _].
  destruct (Hm (Moe.Globals false)) as (w' & ts & Hrun & Hrec).
  exists w', ts. split; [exact Hrun|]. apply Hrec.
Defined.

Lemma handles_in_range (fe : front_end) (w0 : world) (sources : list string)
    (schedule : list nat) :
  JitKernel_CTX w0 = None ->
  (forall n m c d, n <> m ->
     temp_name (tempfile_names w0 n) c <> temp_name (tempfile_names w0 m) d) ->
  exists w' ts,
    interleave schedule (fe_spawn fe <$> sources) w0 = (w', inr ts)
    /\ length ts = length sources
    /\ (forall v, JitKernel_CTX w' = Some v ->
          0 <= v <= Z.of_nat (length sources))
    /\ (forall t c, t ∈ ts -> l_ctx (t_frame t) = Some c ->
          0 <= c < Z.of_nat (length sources)).
Proof.
  intros H0 Hdist.
  destruct (interleave_consistent fe w0 sources schedule w0 _ Hdist
              (consistent_start fe w0 sources))
    as (w' & calls' & Hrun & Hc & Hr).
  specialize (Hr (in_range_start w0 sources H0)). destruct Hr as [Hcnt Hh].
  rewrite spawn_start in Hrun.
  assert (length calls' = length sources) as Hlen.
  { rewrite <- (c_sources _ _ _ _ _ Hc). by rewrite length_fmap. }
  pose proof (incremented_le calls') as Hle. rewrite Hlen in Hle.
  eexists _, _. split; [exact Hrun|]. split; [by rewrite length_fmap|]. split.
  - intros v Hv. specialize (Hcnt v Hv). lia.
  - intros t c (sp & -> & Hin)%list_elem_of_fmap Hl.
    rewrite handle_of_thread_at in Hl.
    destruct (Hh sp c Hin Hl) as [Hlo Hhi]. split; [done|].
    destruct (past_incr sp.2) eqn:Hp; [lia|].
    pose proof (incremented_lt calls' sp Hin Hp). lia.
Qed.

(** X13.  In a process that has not created a kernel yet, however the
    statements of N overlapping calls of [create] are interleaved, no handle
    leaves the range 0 .. N-1 and the class counter never exceeds N: a race
    can make two calls share a handle, it cannot invent one.  Holds for both
    front-ends, under the same proviso on the names of [tempfile.mktemp()]
    as X11 (with it no call fails, so every call keeps running). *)
Theorem X13_overlapping_handles_stay_in_range
    (w0 : world) (sources : list string) (schedule : list nat) :
  JitKernel_CTX w0 = None ->
  (forall n m c d, n <> m ->
     temp_name (tempfile_names w0 n) c <> temp_name (tempfile_names w0 m) d) ->
  (forall g, exists w' ts,
      interleave schedule (Moe.spawn g <$> sources) w0 = (w', inr ts)
      /\ length ts = length sources
      /\ (forall v, JitKernel_CTX w' = Some v ->
            0 <= v <= Z.of_nat (length sources))
      /\ (forall t c, t ∈ ts -> l_ctx (t_frame t) = Some c ->
            0 <= c < Z.of_nat (length sources)))
  /\ (forall g, exists w' ts,
      interleave schedule (Tutel.spawn g <$> sources) w0 = (w', inr ts)
      /\ length ts = length sources
      /\ (forall v, JitKernel_CTX w' = Some v ->
            0 <= v <= Z.of_nat (length sources))
      /\ (forall t c, t ∈ ts -> l_ctx (t_frame t) = Some c ->
            0 <= c < Z.of_nat (length sources))).
Proof.
  intros H0 Hdist. split; intros g.
  - exact (handles_in_range (FE_moe g) w0 sources schedule H0 Hdist).
  - exact (handles_in_range (FE_tutel g) w0 sources schedule H0 Hdist).
Qed.

Lemma X13_overlapping_handles_stay_in_range_witness :
  JitKernel_CTX fresh_process = None
  /\ (forall n m c d, n <> m ->
        temp_name (tempfile_names fresh_process n) c
        <> temp_name (tempfile_names fresh_process m) d)
  /\ exists w' ts,
       interleave racing_schedule (Moe.spawn (Moe.Globals false) <$> ["a"; "b"])
         fresh_process = (w', inr ts)
       /\ forall t c, t ∈ ts -> l_ctx (t_frame t) = Some c -> 0 <= c < 2.
Proof.
  split; [reflexivity|]. split; [exact fresh_names_distinct|].
  destruct (X13_overlapping_handles_stay_in_range fresh_process ["a"; "b"]
              racing_schedule eq_refl fresh_names_distinct) as [Hm _].
  destruct (Hm (Moe.Globals false)) as (w' & ts & Hrun & _ & _ & Hh).
  exists w', ts. split; [exact Hrun|]. exact Hh.
Defined.
